(** * The OTP manager of Bite Me Buddy (class [OTPManager])

    A shallow embedding of the client-side one-time-password manager:
    the record store (a JavaScript [Map] keyed by order id), the clock
    and random source it reads, and the methods [generateOTP],
    [verifyOTP], [checkOTPStatus], [resendOTP], [cleanupExpiredOTPs]
    and [getStatistics], written as computations in a small state
    monad over the manager's world.  Arithmetic on fractional Numbers
    ([Math.random() * 9000], [verified / total * 100], [seconds / 60])
    is rounded to binary64 as the program rounds it. *)

From Stdlib Require Import ZArith QArith Qround Qpower String Ascii List Bool.
From Stdlib Require Import Lia Lqa.
From Stdlib Require Import DecimalString.
From Stdlib Require HexadecimalString DecimalZ DecimalPos SpecFloat.
From stdpp Require Import gmap strings list fin_maps.

Local Open Scope string_scope.
Local Open Scope Z_scope.

(** ** Numbers: IEEE 754 binary64 *)

(** A finite JavaScript Number is a rational with at most 53
    significant bits, and an arithmetic operation returns the exact
    result rounded to the nearest such value, a tie going to the even
    significand.  [round] is that rounding on the rationals, down to
    the subnormal range (no exponent below -1074).  Infinities, NaN and
    the sign of zero are not represented: the expressions of the
    manager stay far inside the finite range. *)
Module Binary64.

Definition pow2 (e : Z) : Q := (2 ^ e)%Q.

(** The exponent [e] with [2^e <= x < 2^(e+1)], for a positive [x]. *)
Definition ilog2 (x : Q) : Z :=
  let d := Z.log2 (Qnum x) - Z.log2 (Zpos (Qden x)) in
  if Qle_bool (pow2 d) x then d else d - 1.

(** The nearest integer, a tie going to the even one. *)
Definition rne (q : Q) : Z :=
  let f := Qfloor q in
  match (q - inject_Z f ?= 1 # 2)%Q with
  | Lt => f
  | Gt => f + 1
  | Eq => if Z.even f then f else f + 1
  end.

(** The exponent of the last place of the format at [x]. *)
Definition ulp_exp (x : Q) : Z := Z.max (ilog2 x - 52) (- 1074).

Definition round_pos (x : Q) : Q :=
  (inject_Z (rne (x / pow2 (ulp_exp x))) * pow2 (ulp_exp x))%Q.

Definition round (x : Q) : Q :=
  match (x ?= 0)%Q with
  | Eq => 0%Q
  | Gt => round_pos x
  | Lt => (- round_pos (- x))%Q
  end.

(** The rationals that are values of the format. *)
Definition is_binary64 (x : Q) : bool := Qeq_bool (round x) x.

(** The value of a finite float of the Standard Library's reference
    implementation of the format, against which [round] is compared
    on samples. *)
Definition of_float (f : SpecFloat.spec_float) : Q :=
  match f with
  | SpecFloat.S754_finite s m e =>
      ((if s then - (1) else 1) * inject_Z (Zpos m) * pow2 e)%Q
  | _ => 0%Q
  end.

Definition float_of_Z (n : positive) : SpecFloat.spec_float :=
  SpecFloat.S754_finite false n 0.

End Binary64.

Import Binary64.

(** ** JavaScript primitives used by the manager *)

Module Js.

(** [Number.prototype.toString] on an integral Number: its decimal
    numeral, with a leading minus sign when negative. *)
Definition Number_toString (z : Z) : string :=
  NilZero.string_of_int (Z.to_int z).

(** The operators [+], [*] and [/] on Numbers: the exact result,
    rounded. *)
Definition Number_add (x y : Q) : Q := Binary64.round (x + y)%Q.
Definition Number_mul (x y : Q) : Q := Binary64.round (x * y)%Q.
Definition Number_div (x y : Q) : Q := Binary64.round (x / y)%Q.

(** [Math.floor], [Math.ceil] and [Math.max]; their results are
    integers.  Counters, timestamps and their sums and differences are
    integers far below 2^53, on which Number arithmetic is exact: they
    are taken in [Z].  The quotient [timeRemaining / 1000] of
    [checkOTPStatus] is taken exactly as well: below 2^52 milliseconds
    its rounding does not change the ceiling, which is all the method
    uses of it. *)
Definition Math_floor (x : Q) : Z := Qfloor x.
Definition Math_ceil (x : Q) : Z := Qceiling x.
Definition Math_max (a b : Z) : Z := Z.max a b.

(** A value of [Math.random()]: a Number, so a value of the format, in
    the half-open interval from 0 (included) to 1 (excluded). *)
Record unit_interval : Type := UnitInterval {
  ui_val : Q;
  ui_range : Qle_bool 0 ui_val && negb (Qle_bool 1 ui_val)
             && Binary64.is_binary64 ui_val = true
}.

(** [x.toFixed(1)] for a Number [x] below 10^21 in size: the integer
    [n] for which [n / 10] is nearest to the value of [x] (the larger
    one on a tie), printed with one digit after the point; a negative
    [x] is printed as minus the rendering of [-x]. *)
Definition tenths (x : Q) : Z := Qfloor (x * 10 + (1 # 2))%Q.

Definition render_tenths (n : Z) : string :=
  Number_toString (n / 10) ++ "." ++ Number_toString (n mod 10).

Definition toFixed1 (x : Q) : string :=
  if Qle_bool 0 x then render_tenths (tenths x)
  else "-" ++ render_tenths (tenths (- x)%Q).

(** How a call ends: with a result, or by throwing. *)
Inductive completion (A : Type) : Type :=
| Returned (a : A)
| Thrown.

Arguments Returned {A} a.
Arguments Thrown {A}.

(** The result of an expression that yields a Number on one branch
    and a String on the other. *)
Inductive value : Type :=
| VNumber (q : Q)
| VString (s : string).

(** Strings of decimal digits, and the Number a non-negative decimal
    numeral denotes (digits, optionally a point and more digits), as
    [Number(s)] reads it. *)
Definition is_digit (c : ascii) : bool :=
  let n := nat_of_ascii c in (48 <=? n)%nat && (n <=? 57)%nat.

Fixpoint numeric (s : string) : bool :=
  match s with
  | EmptyString => true
  | String c s' => is_digit c && numeric s'
  end.

Fixpoint read_digits (s : string) (acc : Z) (n : nat) : Z * nat * string :=
  match s with
  | String c s' =>
      if is_digit c
      then read_digits s' (acc * 10 + (Z.of_nat (nat_of_ascii c) - 48)) (S n)
      else (acc, n, s)
  | EmptyString => (acc, n, s)
  end.

Definition Number_of_string (s : string) : option Q :=
  let '(ip, n1, rest) := read_digits s 0 0 in
  match n1, rest with
  | O, _ => None
  | _, EmptyString => Some (inject_Z ip)
  | _, String "."%char frac =>
      let '(fp, n2, rest') := read_digits frac 0 0 in
      match n2, rest' with
      | S _, EmptyString =>
          Some (inject_Z ip + inject_Z fp / inject_Z (10 ^ Z.of_nat n2))%Q
      | _, _ => None
      end
  | _, _ => None
  end.

Definition Number_of (v : value) : option Q :=
  match v with
  | VNumber q => Some q
  | VString s => Number_of_string s
  end.

End Js.

Import Js.

(** ** Data model *)

(** The object stored per order ([this.otpStore.set(orderId, {...})]).
    [verifiedAt] is absent until a successful verification. *)
Record OtpData : Type := mkOtpData {
  otp : string;
  phone : string;
  attempts : Z;
  generatedAt : Z;
  expiresAt : Z;
  verified : bool;
  verifiedAt : option Z
}.

Definition set_attempts (a : Z) (d : OtpData) : OtpData :=
  mkOtpData (otp d) (phone d) a (generatedAt d) (expiresAt d)
            (verified d) (verifiedAt d).

Definition set_verified (b : bool) (d : OtpData) : OtpData :=
  mkOtpData (otp d) (phone d) (attempts d) (generatedAt d) (expiresAt d)
            b (verifiedAt d).

Definition set_verifiedAt (t : Z) (d : OtpData) : OtpData :=
  mkOtpData (otp d) (phone d) (attempts d) (generatedAt d) (expiresAt d)
            (verified d) (Some t).

(** Result objects of the methods.  A field whose JavaScript name is
    taken in Rocq ([exists]) or is already a field of [OtpData] carries
    a prefix or suffix: [st_] for [checkOTPStatus], [rs_] for
    [resendOTP], [Count] for the counts of [getStatistics]. *)
Record VerifyResult : Type := mkVerifyResult {
  success : bool;
  message : string;
  remainingAttempts : Z
}.

Record StatusResult : Type := mkStatusResult {
  st_exists : bool;
  st_verified : bool;
  st_expired : bool;
  st_attempts : Z;
  st_remainingAttempts : Z;
  st_timeRemaining : Z
}.

Record ResendResult : Type := mkResendResult {
  rs_success : bool;
  rs_message : string;
  rs_otp : option string
}.

Record Statistics : Type := mkStatistics {
  total : Z;
  verifiedCount : Z;
  expiredCount : Z;
  active : Z;
  successRate : Js.value
}.

(** Constructor constants: [this.otpExpiry = 5 * 60 * 1000] and
    [this.maxAttempts = 3]. *)
Definition otpExpiry : Z := 5 * 60 * 1000.
Definition maxAttempts : Z := 3.

Section Manager.

(** Order ids are the keys of the [Map]; any type with decidable
    equality that can be enumerated will do (numbers, strings). *)
Context {K : Type} `{Countable K}.

(** The world a method runs in.
    - [otpStore]: the [Map] held by the manager; the order of its
      entries has no part in any result, so a finite map stands for it;
    - [localStorage]: the image last written under the key
      [bite_me_buddy_otps] ([None] when nothing was written yet);
    - [outbox]: the messages handed to [sendOTPSMS], newest first,
      as (phone, code, order id);
    - [clock]: the value [Date.now()] returns.  A method runs to
      completion within one reading of the millisecond clock; time
      passes between calls ([wait]);
    - [entropy], [draws]: the values [Math.random()] will return and
      how many have been consumed;
    - [accepts], [writes]: whether [localStorage.setItem] will accept
      the first, the second, ... write (it throws when the quota is
      exceeded or storage is switched off), and how many writes were
      attempted. *)
Record World : Type := mkWorld {
  otpStore : gmap K OtpData;
  localStorage : option (gmap K OtpData);
  outbox : list (string * string * K);
  clock : Z;
  entropy : nat -> unit_interval;
  draws : nat;
  accepts : nat -> bool;
  writes : nat
}.

Definition with_store (m : gmap K OtpData) (w : World) : World :=
  mkWorld m (localStorage w) (outbox w) (clock w) (entropy w) (draws w)
          (accepts w) (writes w).

(** *** The state monad *)

Definition M (A : Type) : Type := World -> A * World.

Definition ret {A} (a : A) : M A := fun w => (a, w).

Definition bind {A B} (c : M A) (k : A -> M B) : M B :=
  fun w => let (a, w') := c w in k a w'.

Notation "x <- c ;; k" := (bind c (fun x => k))
  (at level 100, c at next level, right associativity).
Notation "c ;;; k" := (bind c (fun _ => k))
  (at level 100, right associativity).

(** *** Primitive effects *)

Definition Date_now : M Z := fun w => (clock w, w).

Definition Math_random : M Q :=
  fun w => (ui_val (entropy w (draws w)),
            mkWorld (otpStore w) (localStorage w) (outbox w) (clock w)
                    (entropy w) (S (draws w)) (accepts w) (writes w)).

Definition Map_get (orderId : K) : M (option OtpData) :=
  fun w => (otpStore w !! orderId, w).

Definition Map_set (orderId : K) (d : OtpData) : M unit :=
  fun w => (tt, with_store (<[orderId := d]> (otpStore w)) w).

Definition Map_delete (orderId : K) : M unit :=
  fun w => (tt, with_store (delete orderId (otpStore w)) w).

Definition Map_size : M Z :=
  fun w => (Z.of_nat (size (otpStore w)), w).

Definition Map_entries : M (list (K * OtpData)) :=
  fun w => (map_to_list (otpStore w), w).

Definition Map_values : M (list OtpData) :=
  fun w => ((map_to_list (otpStore w)).*2, w).

(** [saveToStorage]: the whole store is serialised and written.  The
    image is kept as the store itself, where the JSON text names each
    entry by the string of its id.  When [setItem] throws, the source
    catches and logs the error: the image stays what it was. *)
Definition image (m : gmap K OtpData) (w : World)
  : option (gmap K OtpData) :=
  if accepts w (writes w) then Some m else localStorage w.

Definition saveToStorage : M unit :=
  fun w => (tt, mkWorld (otpStore w) (image (otpStore w) w) (outbox w)
                        (clock w) (entropy w) (draws w)
                        (accepts w) (S (writes w))).

(** [sendOTPSMS]: the demo transport logs the message; its result is
    never awaited or inspected by the caller. *)
Definition sendOTPSMS (phoneNumber code : string) (orderId : K) : M unit :=
  fun w => (tt, mkWorld (otpStore w) (localStorage w)
                        ((phoneNumber, code, orderId) :: outbox w)
                        (clock w) (entropy w) (draws w)
                        (accepts w) (writes w)).

(** [Array.prototype.filter] with a callback that may read the world,
    and a left-to-right loop with an accumulator. *)
Fixpoint Array_filter {A} (f : A -> M bool) (l : list A) : M (list A) :=
  match l with
  | [] => ret []
  | x :: l' =>
      b <- f x ;;
      r <- Array_filter f l' ;;
      ret (if b then x :: r else r)
  end.

Fixpoint for_of {A S} (body : S -> A -> M S) (s : S) (l : list A) : M S :=
  match l with
  | [] => ret s
  | x :: l' => s' <- body s x ;; for_of body s' l'
  end.

(** *** Methods of [OTPManager] *)

Definition generateOTP (orderId : K) (phoneNumber : string) : M string :=
  r <- Math_random ;;
  let code := Number_toString
                (Math_floor (Number_add 1000 (Number_mul r 9000))) in
  t1 <- Date_now ;;
  t2 <- Date_now ;;
  Map_set orderId (mkOtpData code phoneNumber 0 t1 (t2 + otpExpiry)
                             false None) ;;;
  saveToStorage ;;;
  sendOTPSMS phoneNumber code orderId ;;;
  ret code.

(** In [verifyOTP] the local [otpData] is the very object held by the
    [Map], so [otpData.attempts++] and the writes to [verified] and
    [verifiedAt] are visible through the store at once; each such
    write is modelled by [Map_set] on the same key, as is the explicit
    [this.otpStore.set(orderId, otpData)] that follows. *)
Definition verifyOTP (orderId : K) (inputOTP : string) : M VerifyResult :=
  found <- Map_get orderId ;;
  match found with
  | None => ret (mkVerifyResult false "OTP not found or expired" 0)
  | Some otpData =>
      now <- Date_now ;;
      if now >? expiresAt otpData then
        Map_delete orderId ;;;
        saveToStorage ;;;
        ret (mkVerifyResult false "OTP has expired" 0)
      else if attempts otpData >=? maxAttempts then
        ret (mkVerifyResult false "Maximum OTP attempts exceeded" 0)
      else
        let otpData := set_attempts (attempts otpData + 1) otpData in
        Map_set orderId otpData ;;;
        if String.eqb (otp otpData) inputOTP then
          now' <- Date_now ;;
          let otpData := set_verifiedAt now' (set_verified true otpData) in
          Map_set orderId otpData ;;;
          Map_set orderId otpData ;;;
          saveToStorage ;;;
          ret (mkVerifyResult true "OTP verified successfully"
                              (maxAttempts - attempts otpData))
        else
          Map_set orderId otpData ;;;
          saveToStorage ;;;
          let remaining := maxAttempts - attempts otpData in
          ret (mkVerifyResult false
                 ("Invalid OTP. " ++ Number_toString remaining ++ " attempt"
                  ++ (if remaining =? 1 then "" else "s") ++ " remaining")
                 remaining)
  end.

Definition checkOTPStatus (orderId : K) : M StatusResult :=
  found <- Map_get orderId ;;
  match found with
  | None => ret (mkStatusResult false false true 0 0 0)
  | Some otpData =>
      now <- Date_now ;;
      let timeRemaining := Math_max 0 (expiresAt otpData - now) in
      let remaining := Math_max 0 (maxAttempts - attempts otpData) in
      ret (mkStatusResult true
             (verified otpData || false)
             (timeRemaining =? 0)
             (attempts otpData)
             remaining
             (Math_ceil (inject_Z timeRemaining / 1000)%Q))
  end.

Definition resendOTP (orderId : K) : M ResendResult :=
  found <- Map_get orderId ;;
  match found with
  | None =>
      ret (mkResendResult false
             "Cannot resend OTP. Please generate a new one." None)
  | Some otpData =>
      newOTP <- generateOTP orderId (phone otpData) ;;
      ret (mkResendResult true "New OTP sent successfully" (Some newOTP))
  end.

(** The loop deletes the entry it is visiting; a JavaScript [Map]
    iterator then goes on with the entries that remain, which are the
    not yet visited ones of the starting snapshot. *)
Definition cleanupExpiredOTPs : M unit :=
  now <- Date_now ;;
  entries <- Map_entries ;;
  cleanedCount <-
    for_of (fun (count : Z) (e : K * OtpData) =>
              if now >? expiresAt (snd e) + 300000 then
                Map_delete (fst e) ;;; ret (count + 1)
              else ret count)
           0 entries ;;
  if cleanedCount >? 0 then saveToStorage else ret tt.

Definition getStatistics : M Statistics :=
  total <- Map_size ;;
  values <- Map_values ;;
  verifiedL <- Array_filter (fun data => ret (verified data)) values ;;
  let verified := Z.of_nat (length verifiedL) in
  values' <- Map_values ;;
  expiredL <- Array_filter
               (fun data => now <- Date_now ;; ret (now >? expiresAt data))
               values' ;;
  let expired := Z.of_nat (length expiredL) in
  ret (mkStatistics total verified expired (total - verified - expired)
         (if total >? 0
          then VString (toFixed1
                 (Number_mul (Number_div (inject_Z verified) (inject_Z total))
                             100))
          else VNumber 0%Q)).

(** *** Traces of calls *)

(** Time passing between two calls; [dt] is any integer, as the system
    clock behind [Date.now()] need not be monotone. *)
Definition wait (dt : Z) : M unit :=
  fun w => (tt, mkWorld (otpStore w) (localStorage w) (outbox w)
                        (clock w + dt) (entropy w) (draws w)
                        (accepts w) (writes w)).

Inductive Call : Type :=
| CGenerate (orderId : K) (phoneNumber : string)
| CVerify (orderId : K) (inputOTP : string)
| CResend (orderId : K)
| CCheckStatus (orderId : K)
| CSweep
| CStatistics
| CWait (dt : Z).

Definition exec (c : Call) (w : World) : World :=
  match c with
  | CGenerate k p => snd (generateOTP k p w)
  | CVerify k i => snd (verifyOTP k i w)
  | CResend k => snd (resendOTP k w)
  | CCheckStatus k => snd (checkOTPStatus k w)
  | CSweep => snd (cleanupExpiredOTPs w)
  | CStatistics => snd (getStatistics w)
  | CWait dt => snd (wait dt w)
  end.

Definition run (cs : list Call) (w : World) : World :=
  fold_left (fun w c => exec c w) cs w.

(** A manager constructed on a first visit: an empty [Map] and nothing
    in [localStorage] to load; [ok] tells which writes the storage
    will accept. *)
Definition fresh (t0 : Z) (rnd : nat -> unit_interval) (ok : nat -> bool)
  : World :=
  mkWorld ∅ None [] t0 rnd 0 ok 0.

Definition reachable (w : World) : Prop :=
  exists t0 rnd ok cs, w = run cs (fresh t0 rnd ok).

(** *** Vocabulary for the statements *)

(** The code [generateOTP] draws in a given world, and the record it
    stores. *)
Definition next_code (w : World) : string :=
  Number_toString
    (Math_floor (Number_add 1000
                   (Number_mul (ui_val (entropy w (draws w))) 9000))).

Definition fresh_record (w : World) (phoneNumber : string) : OtpData :=
  mkOtpData (next_code w) phoneNumber 0 (clock w) (clock w + otpExpiry)
            false None.

(** The record after a successful verification at time [t], and after
    a rejected code. *)
Definition accepted (t : Z) (d : OtpData) : OtpData :=
  mkOtpData (otp d) (phone d) (attempts d + 1) (generatedAt d)
            (expiresAt d) true (Some t).

Definition rejected (d : OtpData) : OtpData :=
  mkOtpData (otp d) (phone d) (attempts d + 1) (generatedAt d)
            (expiresAt d) (verified d) (verifiedAt d).

(** The test of the sweep loop, [now > otpData.expiresAt + 300000],
    and the test of the [expired] count, [Date.now() > data.expiresAt]. *)
Definition past_grace (now : Z) (d : OtpData) : bool :=
  now >? expiresAt d + 300000.

Definition past_expiry (now : Z) (d : OtpData) : bool :=
  now >? expiresAt d.

(** The sweep loop, one iteration at a time: its body as written, and
    its effect on the store. *)
Definition sweep_body (now : Z) (count : Z) (e : K * OtpData) : M Z :=
  if now >? expiresAt (snd e) + 300000 then
    Map_delete (fst e) ;;; ret (count + 1)
  else ret count.

Definition sweep_step (now : Z) (m : gmap K OtpData) (e : K * OtpData)
  : gmap K OtpData :=
  if past_grace now (snd e) then delete (fst e) m else m.

Definition sweep_store (now : Z) (m : gmap K OtpData) : gmap K OtpData :=
  fold_left (sweep_step now) (map_to_list m) m.

Definition swept_count (now : Z) (m : gmap K OtpData) : Z :=
  Z.of_nat (length (List.filter (fun e : K * OtpData => past_grace now (snd e))
                                (map_to_list m))).

(** The number of records of the store that satisfy a test. *)
Definition count_records (p : OtpData -> bool) (m : gmap K OtpData) : Z :=
  Z.of_nat (size (filter (fun e : K * OtpData => p (snd e) = true) m)).

(** The [successRate] expression of [getStatistics]. *)
Definition success_rate (total verified : Z) : Js.value :=
  if total >? 0
  then VString (toFixed1
         (Number_mul (Number_div (inject_Z verified) (inject_Z total)) 100))
  else VNumber 0%Q.

(** Every record has consumed between 0 and [maxAttempts] attempts. *)
Definition attempts_bounded (w : World) : Prop :=
  forall k d, otpStore w !! k = Some d -> 0 <= attempts d <= maxAttempts.

(** The record of order [k] is gone, or it still carries the code [c]
    and the expiry [e] and has consumed at least [n] attempts. *)
Definition consumed (k : K) (c : string) (e n : Z) (w : World) : Prop :=
  match otpStore w !! k with
  | None => True
  | Some d => otp d = c /\ expiresAt d = e /\ n <= attempts d
  end.

End Manager.

(** ** Sample worlds, with order ids taken in [Z] *)

Definition four_digit_numeral (i : nat) : bool :=
  let s := Number_toString (1000 + Z.of_nat i) in
  (String.length s =? 4)%nat && numeric s.

(** A random source that always returns one half: every code is 5500. *)
Definition half : unit_interval := UnitInterval (1 # 2) eq_refl.

(** A draw at which the rounding of the product decides the code:
    [1000 + r * 9000] is just below 1025 as a rational, and 1025 as a
    Number. *)
Definition near_1025 : unit_interval :=
  UnitInterval (12509998964918 # 4503599627370496) eq_refl.

Definition demo_fresh : @World Z _ _ :=
  fresh 0 (fun _ => half) (fun _ => true).

Definition demo_record : OtpData :=
  mkOtpData "5500" "9876543210" 0 0 300000 false None.

(** One order, its code just generated. *)
Definition demo_generated : @World Z _ _ :=
  run [CGenerate 1 "9876543210"] demo_fresh.

(** The same order, one millisecond past its expiry. *)
Definition demo_expired : @World Z _ _ :=
  run [CGenerate 1 "9876543210"; CWait 300001] demo_fresh.

(** The same order, verified, then left until past its expiry; the
    sweep that runs then finds it within the grace window. *)
Definition demo_verified_expired : @World Z _ _ :=
  run [CGenerate 1 "9876543210"; CVerify 1 "5500"; CWait 300001; CSweep]
      demo_fresh.

(** The same order, one millisecond past the grace window. *)
Definition demo_stale : @World Z _ _ :=
  run [CGenerate 1 "9876543210"; CWait 600001] demo_fresh.

(** Three orders, the second one verified. *)
Definition demo_three : @World Z _ _ :=
  run [CGenerate 1 "9876543210"; CGenerate 2 "9876543211";
       CGenerate 3 "9876543212"; CVerify 2 "5500"] demo_fresh.

(** Two orders: the first was generated at time 0 and never verified,
    the second was generated 200 seconds later and verified; the clock
    then stands just past the expiry of the first. *)
Definition demo_two : @World Z _ _ :=
  run [CGenerate 1 "9876543210"; CWait 200000; CGenerate 2 "9876543211";
       CVerify 2 "5500"; CWait 100001] demo_fresh.

(** Two orders generated at the same time, the first one verified; the
    clock then stands just past the expiry of both. *)
Definition demo_both_expired : @World Z _ _ :=
  run [CGenerate 1 "9876543210"; CGenerate 2 "9876543211";
       CVerify 1 "5500"; CWait 300001] demo_fresh.

(** Eighty orders, the first twenty-three of them verified. *)
Definition demo_eighty : @World Z _ _ :=
  run (map (fun i => CGenerate (Z.of_nat i) "9876543210") (seq 1 80)
       ++ map (fun i => CVerify (Z.of_nat i) "5500") (seq 1 23))
      demo_fresh.

(** ** More JavaScript primitives *)

Module JsText.

(** Strings are sequences of code units; the ones modelled here have
    code units below 256.  [charCodes s] lists [s.charCodeAt(i)] for
    [i] from 0 to [s.length - 1]. *)
Definition charCodes (s : string) : list Z :=
  map (fun c => Z.of_nat (nat_of_ascii c)) (list_ascii_of_string s).

(** [s.replace(/\D/g, '')]: every code unit that is not a decimal digit
    is dropped. *)
Fixpoint strip_non_digits (s : string) : string :=
  match s with
  | EmptyString => EmptyString
  | String c s' =>
      if is_digit c then String c (strip_non_digits s')
      else strip_non_digits s'
  end.

(** The character class [[6-9]]. *)
Definition is_6_to_9 (c : ascii) : bool :=
  let n := nat_of_ascii c in (54 <=? n)%nat && (n <=? 57)%nat.

(** [/^[6-9]/.test(s)]. *)
Definition starts_6_to_9 (s : string) : bool :=
  match s with
  | String c _ => is_6_to_9 c
  | EmptyString => false
  end.

(** [s.padStart(n, c)] for a one-character filler. *)
Fixpoint repeat_char (c : ascii) (n : nat) : string :=
  match n with
  | O => EmptyString
  | S n' => String c (repeat_char c n')
  end.

Definition padStart (n : nat) (c : ascii) (s : string) : string :=
  repeat_char c (n - String.length s) ++ s.

(** [xs.join('')]. *)
Definition join (xs : list string) : string := String.concat "" xs.

(** [ToInt32], and the operators [<<] and [&] on Numbers that hold
    integers: operands are brought to 32-bit two's complement, and so
    is the result. *)
Definition ToInt32 (x : Z) : Z := (x + 2 ^ 31) mod 2 ^ 32 - 2 ^ 31.

Definition shl (x n : Z) : Z := ToInt32 (Z.shiftl (ToInt32 x) (n mod 32)).

Definition band (x y : Z) : Z := Z.land (ToInt32 x) (ToInt32 y).

(** [x.toString(16)] on an integral Number: lower-case hexadecimal
    digits, with a leading minus sign when negative. *)
Definition Number_toString16 (z : Z) : string :=
  HexadecimalString.NilZero.string_of_int (Z.to_hex_int z).

End JsText.

Import JsText.

(** ** [OTPUtils] *)

Module OTPUtils.

(** [/^\d{4,6}$/.test(otp)]. *)
Definition validateOTPFormat (otp : string) : bool :=
  let n := String.length otp in
  (4 <=? n)%nat && (n <=? 6)%nat && numeric otp.

(** [generateSecureOTP(length)]: [crypto i] is the word that
    [window.crypto.getRandomValues] writes at index [i] of the
    [Uint32Array].  [getRandomValues] accepts at most 65536 bytes,
    that is 16384 words of four bytes, and throws on a longer array
    (if the allocation of the array has not thrown before). *)
Definition generateSecureOTP (length : nat) (crypto : nat -> N)
  : completion string :=
  if 16384 <? Z.of_nat length then Thrown
  else Returned
         (join (map (fun i => Number_toString (Z.of_N (crypto i mod 10)))
                    (seq 0 length))).

(** [formatTimeRemaining(seconds)], for an integral number of seconds
    (an integer below 2^53 in size, which a Number holds exactly); the
    quotient is rounded as every quotient of Numbers is, and [%], the
    remainder with the sign of the dividend, is exact. *)
Definition formatTimeRemaining (seconds : Z) : string :=
  let minutes := Math_floor (Number_div (inject_Z seconds) 60) in
  let remainingSeconds := Z.rem seconds 60 in
  Number_toString minutes ++ ":"
    ++ padStart 2 "0" (Number_toString remainingSeconds).

(** [createOTPHash(otp, salt)]: the loop over the code units of
    [otp + salt], then the hexadecimal text. *)
Definition hash_step (hash char : Z) : Z :=
  let hash := (shl hash 5 - hash) + char in
  band hash hash.

Definition hash_code (data : string) : Z :=
  fold_left hash_step (charCodes data) 0.

Definition createOTPHash (otp salt : string) : string :=
  Number_toString16 (hash_code (otp ++ salt)).

Definition isValidPhoneForSMS (phone : string) : bool :=
  let cleaned := strip_non_digits phone in
  (String.length cleaned =? 10)%nat && starts_6_to_9 cleaned.

Definition formatPhoneForSMS (phone : string) : string :=
  let cleaned := strip_non_digits phone in
  if (String.length cleaned =? 10)%nat then "+91" ++ cleaned else phone.

End OTPUtils.

(** ** [AppState]: phone check, cart and notifications *)

Module AppState.

(** [validatePhone(phone)]: [/^[6-9]\d{9}$/] on the digits of [phone]. *)
Definition validatePhone (phone : string) : bool :=
  match strip_non_digits phone with
  | String c rest =>
      is_6_to_9 c && (String.length rest =? 9)%nat && numeric rest
  | EmptyString => false
  end.

(** A cart entry, and the [itemData] argument of [addToCart], whose
    [quantity] may be missing.  Prices are exact rationals and
    quantities integers. *)
Record Item : Type := mkItem {
  name : string;
  price : Q;
  image : string;
  quantity : Z
}.

Record ItemData : Type := mkItemData {
  data_name : string;
  data_price : Q;
  data_image : string;
  data_quantity : option Z
}.

Record Notification : Type := mkNotification {
  id : Z;
  text : string;
  type : string;
  duration : Z
}.

(** The state of the [AppState] object that the cart methods use:
    [cart] (an object used as a map from item id to entry; item ids are
    not names of members of [Object.prototype]), the image stored under
    [bite_me_buddy_cart], the [notifications] array (oldest first),
    the clock, and whether [localStorage.setItem] will accept the
    first, the second, ... write, with the number of writes attempted.
    The page elements the methods redraw are not part of it. *)
Record State : Type := mkState {
  cart : gmap string Item;
  cartStorage : option (gmap string Item);
  notifications : list Notification;
  now : Z;
  cartAccepts : nat -> bool;
  cartWrites : nat
}.

(** [itemData.quantity || 1]: a missing or zero quantity counts as 1. *)
Definition quantity_or_1 (q : option Z) : Z :=
  match q with
  | Some n => if n =? 0 then 1 else n
  | None => 1
  end.

(** [saveCart]: when [setItem] throws, the source catches and logs the
    error, and the image stays what it was. *)
Definition saveCart (s : State) : State :=
  mkState (cart s)
          (if cartAccepts s (cartWrites s) then Some (cart s)
           else cartStorage s)
          (notifications s) (now s) (cartAccepts s) (S (cartWrites s)).

Definition showNotification (message kind : string) (s : State) : State :=
  mkState (cart s) (cartStorage s)
          (notifications s ++ [mkNotification (now s) message kind 5000])
          (now s) (cartAccepts s) (cartWrites s).

Definition removeNotification (notificationId : Z) (s : State) : State :=
  mkState (cart s) (cartStorage s)
          (List.filter (fun n => negb (id n =? notificationId))
                       (notifications s))
          (now s) (cartAccepts s) (cartWrites s).

Definition addToCart (itemId : string) (itemData : ItemData) (s : State)
  : State :=
  let cart' :=
    match cart s !! itemId with
    | Some item =>
        <[itemId := mkItem (name item) (price item) (image item)
                      (quantity item + quantity_or_1 (data_quantity itemData))]>
          (cart s)
    | None =>
        <[itemId := mkItem (data_name itemData) (data_price itemData)
                      (data_image itemData)
                      (quantity_or_1 (data_quantity itemData))]>
          (cart s)
    end in
  showNotification "Item added to cart" "success"
    (saveCart (mkState cart' (cartStorage s) (notifications s) (now s)
                       (cartAccepts s) (cartWrites s))).

Definition removeFromCart (itemId : string) (s : State) : State :=
  match cart s !! itemId with
  | Some _ =>
      showNotification "Item removed from cart" "info"
        (saveCart (mkState (delete itemId (cart s)) (cartStorage s)
                           (notifications s) (now s)
                           (cartAccepts s) (cartWrites s)))
  | None => s
  end.

Definition updateCartItem (itemId : string) (newQuantity : Z) (s : State)
  : State :=
  match cart s !! itemId with
  | Some item =>
      if newQuantity <=? 0 then removeFromCart itemId s
      else
        saveCart (mkState (<[itemId := mkItem (name item) (price item)
                                         (image item) newQuantity]> (cart s))
                          (cartStorage s) (notifications s) (now s)
                          (cartAccepts s) (cartWrites s))
  | None => s
  end.

Definition clearCart (s : State) : State :=
  showNotification "Cart cleared" "info"
    (saveCart (mkState ∅ (cartStorage s) (notifications s) (now s)
                       (cartAccepts s) (cartWrites s))).

(** [Object.keys(this.cart).length], the number shown on the badge. *)
Definition cartCount (s : State) : Z := Z.of_nat (size (cart s)).

(** Calls on the cart, and time passing. *)
Inductive CartCall : Type :=
| CAdd (itemId : string) (itemData : ItemData)
| CRemove (itemId : string)
| CUpdate (itemId : string) (newQuantity : Z)
| CClear
| CDismiss (notificationId : Z)
| CLater (dt : Z).

Definition step (c : CartCall) (s : State) : State :=
  match c with
  | CAdd i d => addToCart i d s
  | CRemove i => removeFromCart i s
  | CUpdate i q => updateCartItem i q s
  | CClear => clearCart s
  | CDismiss n => removeNotification n s
  | CLater dt =>
      mkState (cart s) (cartStorage s) (notifications s) (now s + dt)
              (cartAccepts s) (cartWrites s)
  end.

Definition steps (cs : list CartCall) (s : State) : State :=
  fold_left (fun s c => step c s) cs s.

(** A first visit: empty cart, nothing stored; [ok] tells which writes
    the storage will accept. *)
Definition initial (t0 : Z) (ok : nat -> bool) : State :=
  mkState ∅ None [] t0 ok 0.

End AppState.

(** ** The rest of [OTPManager] *)

Section ManagerMore.

Context {K : Type} `{Countable K}.

(** What [handleOTPFormSubmit] reports: the entry was incomplete and
    nothing was verified, or [verifyOTP] returned this result (on
    success the handler goes on to mark the order as delivered). *)
Inductive Submission : Type :=
| Incomplete
| Submitted (result : VerifyResult).

(** [handleOTPFormSubmit(form)], as far as the manager is concerned:
    [orderId] is [form.dataset.orderId] and [inputs] the values of the
    digit boxes of the form, in order.  The spinner, the notification
    and the reload that follow do not touch the manager. *)
Definition handleOTPFormSubmit (orderId : K) (inputs : list string)
  : @M K _ _ Submission :=
  let code := join inputs in
  if negb (String.length code =? length inputs)%nat then ret Incomplete
  else bind (verifyOTP orderId code) (fun result => ret (Submitted result)).

(** [handleResendOTP(button)]: [resendOTP] on [button.dataset.orderId]. *)
Definition handleResendOTP (orderId : K) : @M K _ _ ResendResult :=
  resendOTP orderId.

(** The image in [localStorage] is the current store (or nothing was
    written yet and the store is empty). *)
Definition in_sync (w : @World K _ _) : Prop :=
  localStorage w = Some (otpStore w) \/
  (localStorage w = None /\ otpStore w = ∅).

(** The storage accepts every write. *)
Definition always_accepts (w : @World K _ _) : Prop :=
  forall n, accepts w n = true.

(** Calls that may write a new record for order [k]. *)
Definition regenerates (c : @Call K) (k : K) : Prop :=
  match c with
  | CGenerate k' _ => k' = k
  | CResend k' => k' = k
  | _ => False
  end.

(** Calls that hand a message to [sendOTPSMS]. *)
Definition sends (c : @Call K) : Prop :=
  match c with
  | CGenerate _ _ => True
  | CResend _ => True
  | _ => False
  end.

(** [d'] is a later state of the record [d]: same code, phone and
    times, no fewer attempts, and still verified if [d] was. *)
Definition later_state (d d' : OtpData) : Prop :=
  otp d' = otp d /\ phone d' = phone d /\
  generatedAt d' = generatedAt d /\ expiresAt d' = expiresAt d /\
  attempts d <= attempts d' /\
  (verified d = true -> verified d' = true).

End ManagerMore.

(** [loadFromStorage] and the constructor, for order ids that are
    strings (as [dataset.orderId] is): the stored image is read back
    entry by entry into the [Map].  An image that does not parse makes
    the source clear the [Map]; the images written by [saveToStorage]
    parse. *)
Definition loadFromStorage : @M string _ _ unit :=
  fun w =>
    match localStorage w with
    | Some parsed =>
        for_of (fun (_ : unit) (e : string * OtpData) =>
                  Map_set (fst e) (snd e))
               tt (map_to_list parsed) w
    | None => (tt, w)
    end.

(** [new OTPManager()] on a page whose [localStorage], clock and random
    source are those of [w]: an empty [Map], then [loadFromStorage]. *)
Definition construct (w : @World string _ _) : @World string _ _ :=
  snd (loadFromStorage
         (mkWorld ∅ (localStorage w) (outbox w) (clock w) (entropy w)
                  (draws w) (accepts w) (writes w))).


(** ** Vocabulary for the utilities and the cart *)

(** Table entries: the decimal text of a digit has one character, and
    the two-character texts of the seconds 0 to 59 are pairwise
    distinct. *)
Definition one_digit (i : nat) : bool :=
  let s := Number_toString (Z.of_nat i) in
  (String.length s =? 1)%nat && numeric s.

Definition seconds_text (i : nat) : string :=
  padStart 2 "0" (Number_toString (Z.of_nat i)).

Definition seconds_texts_differ (i : nat) : bool :=
  (String.length (seconds_text i) =? 2)%nat &&
  numeric (seconds_text i) &&
  forallb (fun j => implb (String.eqb (seconds_text i) (seconds_text j))
                          (i =? j)%nat)
          (seq 0 60).

(** The value of the code units as digits in base 31, most significant
    first. *)
Definition poly31 (codes : list Z) : Z :=
  fold_left (fun acc c => 31 * acc + c) codes 0.

(** The names that every object inherits from [Object.prototype]: for
    these [this.cart[itemId]] is truthy although the cart holds no such
    entry, and [addToCart] then creates none. *)
Definition Object_prototype_names : list string :=
  ["constructor"; "__defineGetter__"; "__defineSetter__"; "hasOwnProperty";
   "__lookupGetter__"; "__lookupSetter__"; "isPrototypeOf";
   "propertyIsEnumerable"; "toString"; "valueOf"; "__proto__";
   "toLocaleString"].


(** ** More sample worlds *)

(** A manager whose storage refuses every write: one order generated. *)
Definition demo_refused : @World string _ _ :=
  run [CGenerate "17" "9876543210"]
      (fresh 0 (fun _ => half) (fun _ => false)).

(** A manager whose order ids are strings: one order, one wrong code
    entered. *)
Definition demo_form : @World string _ _ :=
  run [CGenerate "17" "9876543210"; CVerify "17" "0000"]
      (fresh 0 (fun _ => half) (fun _ => true)).

(** Two orders, the first one verified. *)
Definition demo_pair : @World Z _ _ :=
  run [CGenerate 1 "9876543210"; CGenerate 2 "9876543211"; CVerify 1 "5500"]
      demo_fresh.

(** A record at the very millisecond of its expiry. *)
Definition demo_instant : @World Z _ _ :=
  run [CGenerate 1 "9876543210"; CWait 300000] demo_fresh.

(** A cart with one pizza, added twice. *)
Definition pizza : AppState.ItemData :=
  AppState.mkItemData "Pizza" (199 # 1) "pizza.png" None.

Definition demo_cart : AppState.State :=
  AppState.steps [AppState.CAdd "7" pizza; AppState.CAdd "7" pizza]
                 (AppState.initial 0 (fun _ => true)).


(** * Proofs *)

(** ** Rounding to binary64 *)

(** The rounding keeps the order of the non-negative rationals and
    fixes the values of the format; these two facts bound the result
    of an operation by its results at representable arguments. *)

Section Binary64Facts.

Local Open Scope Q_scope.

Lemma pow2_pos (e : Z) : 0 < pow2 e.
Proof. apply Qpower_0_lt. reflexivity. Qed.

Lemma pow2_add (a b : Z) : pow2 (a + b) == pow2 a * pow2 b.
Proof. apply Qpower_plus. discriminate. Qed.

Lemma pow2_le (a b : Z) : (a <= b)%Z -> pow2 a <= pow2 b.
Proof. intros Hab. apply Qpower_le_compat_l; [ exact Hab | discriminate ]. Qed.

Lemma pow2_lt (a b : Z) : (a < b)%Z -> pow2 a < pow2 b.
Proof. intros Hab. apply Qpower_lt_compat_l; [ exact Hab | reflexivity ]. Qed.

Lemma pow2_lt_inv (a b : Z) : pow2 a < pow2 b -> (a < b)%Z.
Proof. intros Hab. apply (Qpower_lt_compat_l_inv 2); [ exact Hab | reflexivity ]. Qed.

Lemma pow2_Z (n : Z) : (0 <= n)%Z -> inject_Z (2 ^ n) == pow2 n.
Proof. intros Hn. apply (Zpower_Qpower 2 n Hn). Qed.

Lemma pow2_succ (a : Z) : pow2 (a + 1) == 2 * pow2 a.
Proof. rewrite pow2_add. change (pow2 1) with 2. ring. Qed.

Lemma pow2_div (x : Q) (a b : Z) : x * pow2 a / pow2 b == x * pow2 (a - b).
Proof.
  replace (a - b)%Z with (a + - b)%Z by lia.
  rewrite pow2_add. unfold pow2 at 4. rewrite Qpower_opp.
  fold (pow2 b). field. pose proof (pow2_pos b). lra.
Qed.

Lemma ilog2_spec (x : Q) :
  0 < x -> pow2 (ilog2 x) <= x /\ x < pow2 (ilog2 x + 1).
Proof.
  intros Hx. destruct x as [a b]. unfold ilog2. cbn [Qnum Qden].
  assert (Ha : (0 < a)%Z) by (unfold Qlt in Hx; cbn in Hx; lia).
  set (la := Z.log2 a). set (lb := Z.log2 (Z.pos b)).
  pose proof (Z.log2_spec a Ha) as [Ha1 Ha2]. fold la in Ha1, Ha2.
  pose proof (Z.log2_spec (Z.pos b) ltac:(lia)) as [Hb1 Hb2].
  fold lb in Hb1, Hb2.
  assert (Hla : (0 <= la)%Z) by apply Z.log2_nonneg.
  assert (Hlb : (0 <= lb)%Z) by apply Z.log2_nonneg.
  assert (Hxa : a # b == inject_Z a / inject_Z (Z.pos b)) by apply Qmake_Qdiv.
  assert (HB : 0 < inject_Z (Z.pos b)) by (rewrite <- (Zlt_Qlt 0); lia).
  assert (A1 : pow2 la <= inject_Z a)
    by (rewrite <- pow2_Z by lia; rewrite <- Zle_Qle; lia).
  assert (A2 : inject_Z a < pow2 (la + 1))
    by (rewrite <- pow2_Z by lia; rewrite <- Zlt_Qlt; rewrite <- Z.add_1_r in Ha2; lia).
  assert (B1 : pow2 lb <= inject_Z (Z.pos b))
    by (rewrite <- pow2_Z by lia; rewrite <- Zle_Qle; lia).
  assert (B2 : inject_Z (Z.pos b) < pow2 (lb + 1))
    by (rewrite <- pow2_Z by lia; rewrite <- Zlt_Qlt; rewrite <- Z.add_1_r in Hb2; lia).
  pose proof (pow2_pos lb) as Plb. pose proof (pow2_pos (la - lb)) as Pd.
  assert (Hup : a # b < pow2 (la - lb + 1)).
  { rewrite Hxa. apply Qlt_shift_div_r; [ exact HB | ].
    apply Qlt_le_trans with (pow2 (la + 1)); [ exact A2 | ].
    replace (la + 1)%Z with ((la - lb + 1) + lb)%Z by lia.
    rewrite pow2_add. apply Qmult_le_l; [ apply pow2_pos | exact B1 ]. }
  assert (Hlo : pow2 (la - lb - 1) < a # b).
  { rewrite Hxa. apply Qlt_shift_div_l; [ exact HB | ].
    apply Qlt_le_trans with (pow2 la); [ | exact A1 ].
    replace la with ((la - lb - 1) + (lb + 1))%Z at 2 by lia.
    rewrite pow2_add. apply Qmult_lt_l; [ apply pow2_pos | exact B2 ]. }
  destruct (Qle_bool (pow2 (la - lb)) (a # b)) eqn:Hc.
  - apply Qle_bool_iff in Hc. split; assumption.
  - split; [ apply Qlt_le_weak; exact Hlo | ].
    replace (la - lb - 1 + 1)%Z with (la - lb)%Z by lia.
    apply Qnot_le_lt. intro Hle. apply Qle_bool_iff in Hle. congruence.
Qed.

Lemma ilog2_unique (x : Q) (l : Z) :
  pow2 l <= x -> x < pow2 (l + 1) -> ilog2 x = l.
Proof.
  intros H1 H2.
  assert (Hx : 0 < x) by (pose proof (pow2_pos l); lra).
  destruct (ilog2_spec x Hx) as [S1 S2].
  assert (ilog2 x < l + 1)%Z by (apply pow2_lt_inv; lra).
  assert (l < ilog2 x + 1)%Z by (apply pow2_lt_inv; lra).
  lia.
Qed.

Lemma ilog2_mono (x y : Q) : 0 < x -> x <= y -> (ilog2 x <= ilog2 y)%Z.
Proof.
  intros Hx Hxy.
  destruct (ilog2_spec x Hx) as [S1 _].
  destruct (ilog2_spec y ltac:(lra)) as [_ T2].
  assert (ilog2 x < ilog2 y + 1)%Z by (apply pow2_lt_inv; lra).
  lia.
Qed.

Lemma rne_bounds (q : Q) : (Qfloor q <= rne q <= Qfloor q + 1)%Z.
Proof.
  unfold rne. destruct (q - inject_Z (Qfloor q) ?= 1 # 2);
    [ destruct (Z.even (Qfloor q)) | | ]; lia.
Qed.

Lemma rne_ge (n : Z) (q : Q) : inject_Z n <= q -> (n <= rne q)%Z.
Proof.
  intros Hn. pose proof (rne_bounds q) as [Hb _].
  apply Qfloor_resp_le in Hn. rewrite Qfloor_Z in Hn. lia.
Qed.

Lemma rne_int (n : Z) (q : Q) : q == inject_Z n -> rne q = n.
Proof.
  intros Hq. assert (Hf : Qfloor q = n).
  { rewrite (Qfloor_comp _ _ Hq). apply Qfloor_Z. }
  unfold rne. rewrite Hf.
  assert (Hc : (q - inject_Z n ?= 1 # 2) = Lt).
  { apply Qlt_alt. rewrite Hq. unfold Qminus. rewrite Qplus_opp_r. reflexivity. }
  rewrite Hc. reflexivity.
Qed.

Lemma rne_le (n : Z) (q : Q) : q <= inject_Z n -> (rne q <= n)%Z.
Proof.
  intros Hn. destruct (Qlt_le_dec q (inject_Z n)) as [Hlt | Hge].
  - pose proof (rne_bounds q) as [_ Hb].
    pose proof (Qfloor_le q) as Hf.
    assert (Hz : inject_Z (Qfloor q) < inject_Z n) by lra.
    rewrite <- Zlt_Qlt in Hz. lia.
  - rewrite (rne_int n q); [ lia | lra ].
Qed.

Lemma rne_mono (q1 q2 : Q) : q1 <= q2 -> (rne q1 <= rne q2)%Z.
Proof.
  intros H12. pose proof (Qfloor_resp_le _ _ H12) as Hf.
  destruct (Z.eq_dec (Qfloor q1) (Qfloor q2)) as [Heq | Hne].
  - unfold rne. rewrite <- Heq.
    destruct (Qcompare_spec (q1 - inject_Z (Qfloor q1)) (1 # 2));
      destruct (Qcompare_spec (q2 - inject_Z (Qfloor q1)) (1 # 2));
      try destruct (Z.even (Qfloor q1)); try lia; lra.
  - pose proof (rne_bounds q1). pose proof (rne_bounds q2). lia.
Qed.

Lemma ulp_exp_mono (x y : Q) : 0 < x -> x <= y -> (ulp_exp x <= ulp_exp y)%Z.
Proof.
  intros Hx Hxy. unfold ulp_exp. pose proof (ilog2_mono x y Hx Hxy). lia.
Qed.

Lemma round_pos_nonneg (x : Q) : 0 < x -> 0 <= round_pos x.
Proof.
  intros Hx. unfold round_pos.
  pose proof (pow2_pos (ulp_exp x)) as Hp.
  assert (H0 : (0 <= rne (x / pow2 (ulp_exp x)))%Z).
  { apply rne_ge. apply Qle_shift_div_l; [ exact Hp | ].
    change (inject_Z 0) with 0. rewrite Qmult_0_l. lra. }
  apply Qmult_le_0_compat; [ | lra ].
  rewrite <- (Zle_Qle 0). exact H0.
Qed.

(** Rounding keeps the order: within one binade by the order of the
    nearest integers, across binades because the power of two between
    the arguments is a value of the format. *)
Lemma round_pos_mono (x y : Q) :
  0 < x -> x <= y -> round_pos x <= round_pos y.
Proof.
  intros Hx Hxy. assert (Hy : 0 < y) by lra.
  pose proof (ulp_exp_mono x y Hx Hxy) as He.
  unfold round_pos.
  set (ex := ulp_exp x) in *. set (ey := ulp_exp y) in *.
  pose proof (pow2_pos ex) as Pex. pose proof (pow2_pos ey) as Pey.
  destruct (Z.eq_dec ex ey) as [Heq | Hne].
  - rewrite <- Heq. apply Qmult_le_compat_r; [ | lra ].
    rewrite <- Zle_Qle. apply rne_mono.
    apply Qmult_le_compat_r; [ exact Hxy | ].
    apply Qlt_le_weak, Qinv_lt_0_compat. exact Pex.
  - assert (Hlt : (ex < ey)%Z) by lia.
    destruct (ilog2_spec x Hx) as [_ X2].
    destruct (ilog2_spec y Hy) as [Y1 _].
    assert (Hey : ey = (ilog2 y - 52)%Z) by (unfold ey, ex, ulp_exp in *; lia).
    assert (Hlx : (ilog2 x + 1 <= ilog2 y)%Z)
      by (unfold ey, ex, ulp_exp in *; lia).
    apply Qle_trans with (pow2 (ilog2 y)).
    + destruct (Z_le_gt_dec ex (ilog2 x + 1)) as [Hc | Hc].
      * apply Qle_trans with (pow2 (ilog2 x + 1)); [ | now apply pow2_le ].
        assert (E : pow2 (ilog2 x + 1) == pow2 (ilog2 x + 1 - ex) * pow2 ex).
        { rewrite <- pow2_add. now replace (ilog2 x + 1 - ex + ex)%Z
            with (ilog2 x + 1)%Z by lia. }
        rewrite E. apply Qmult_le_compat_r; [ | lra ].
        pose proof (pow2_Z (ilog2 x + 1 - ex) ltac:(lia)) as P.
        rewrite <- P. rewrite <- Zle_Qle. apply rne_le.
        rewrite P. apply Qle_shift_div_r; [ exact Pex | ].
        rewrite <- E. lra.
      * apply Qle_trans with (pow2 ex); [ | apply pow2_le; lia ].
        apply Qle_trans with (1 * pow2 ex);
          [ | rewrite Qmult_1_l; apply Qle_refl ].
        apply Qmult_le_compat_r; [ | lra ].
        change 1 with (inject_Z 1). rewrite <- Zle_Qle. apply rne_le.
        apply Qle_shift_div_r; [ exact Pex | ].
        change (inject_Z 1) with 1. rewrite Qmult_1_l.
        apply Qle_trans with (pow2 (ilog2 x + 1)); [ lra | apply pow2_le; lia ].
    + assert (E : pow2 (ilog2 y) == pow2 52 * pow2 ey).
      { rewrite <- pow2_add. now replace (52 + ey)%Z with (ilog2 y) by lia. }
      rewrite E at 1. apply Qmult_le_compat_r; [ | lra ].
      pose proof (pow2_Z 52 ltac:(lia)) as P.
      rewrite <- P. rewrite <- Zle_Qle. apply rne_ge.
      rewrite P. apply Qle_shift_div_l; [ exact Pey | ].
      rewrite <- E. exact Y1.
Qed.

(** A significand below 2^53 at an exponent of the format is kept. *)
Lemma round_pos_fixed (n e : Z) :
  (0 < n < 2 ^ 53)%Z -> (- 1074 <= e)%Z ->
  round_pos (inject_Z n * pow2 e) == inject_Z n * pow2 e.
Proof.
  intros Hn He. set (x := inject_Z n * pow2 e).
  pose proof (Z.log2_spec n ltac:(lia)) as [L1 L2].
  assert (Hl0 : (0 <= Z.log2 n)%Z) by apply Z.log2_nonneg.
  assert (Hl52 : (Z.log2 n <= 52)%Z).
  { assert (Z.log2 n < 53)%Z; [ | lia ].
    apply Z.log2_lt_pow2; lia. }
  pose proof (pow2_pos e) as Pe.
  assert (Hlog : ilog2 x = (Z.log2 n + e)%Z).
  { apply ilog2_unique; unfold x.
    - rewrite pow2_add. apply Qmult_le_compat_r; [ | lra ].
      pose proof (pow2_Z (Z.log2 n) ltac:(lia)) as P.
      rewrite <- P. rewrite <- Zle_Qle. lia.
    - replace (Z.log2 n + e + 1)%Z with (Z.succ (Z.log2 n) + e)%Z by lia.
      rewrite pow2_add. apply Qmult_lt_compat_r; [ exact Pe | ].
      pose proof (pow2_Z (Z.succ (Z.log2 n)) ltac:(lia)) as P.
      rewrite <- P. rewrite <- Zlt_Qlt. lia. }
  unfold round_pos, ulp_exp. rewrite Hlog.
  set (u := Z.max (Z.log2 n + e - 52) (-1074)).
  assert (Hu : (u <= e)%Z) by (unfold u; lia).
  pose proof (pow2_pos u) as Pu.
  assert (Hx : x == inject_Z (n * 2 ^ (e - u)) * pow2 u).
  { unfold x. rewrite inject_Z_mult.
    rewrite (pow2_Z (e - u) ltac:(lia)).
    rewrite <- Qmult_assoc, <- pow2_add.
    replace (e - u + u)%Z with e by lia. reflexivity. }
  rewrite (rne_int (n * 2 ^ (e - u))).
  - symmetry. exact Hx.
  - rewrite Hx. field. lra.
Qed.

Lemma round_of_pos (x : Q) : 0 < x -> round x = round_pos x.
Proof.
  intros Hx. unfold round. apply Qgt_alt in Hx. rewrite Hx. reflexivity.
Qed.

Lemma round_of_zero (x : Q) : x == 0 -> round x = 0.
Proof.
  intros Hx. unfold round. apply Qeq_alt in Hx. rewrite Hx. reflexivity.
Qed.

Lemma round_nonneg (x : Q) : 0 <= x -> 0 <= round x.
Proof.
  intros Hx. destruct (Qlt_le_dec 0 x) as [Hp | Hz].
  - rewrite round_of_pos by exact Hp. now apply round_pos_nonneg.
  - rewrite round_of_zero by lra. apply Qle_refl.
Qed.

Lemma round_mono (x y : Q) : 0 <= x -> x <= y -> round x <= round y.
Proof.
  intros Hx Hxy. destruct (Qlt_le_dec 0 x) as [Hp | Hz].
  - rewrite (round_of_pos x) by exact Hp.
    rewrite (round_of_pos y) by lra. now apply round_pos_mono.
  - rewrite (round_of_zero x) by lra. apply round_nonneg. lra.
Qed.

Lemma round_proper (x y : Q) : 0 <= x -> x == y -> round x == round y.
Proof.
  intros Hx Hxy. apply Qle_antisym; apply round_mono; lra.
Qed.

Lemma round_fixed (n e : Z) :
  (0 <= n < 2 ^ 53)%Z -> (- 1074 <= e)%Z ->
  round (inject_Z n * pow2 e) == inject_Z n * pow2 e.
Proof.
  intros Hn He. pose proof (pow2_pos e) as Pe.
  destruct (Z.eq_dec n 0%Z) as [-> | Hn0].
  - rewrite round_of_zero; change (inject_Z 0) with 0; lra.
  - rewrite round_of_pos.
    + apply round_pos_fixed; lia.
    + apply Qmult_lt_0_compat; [ | exact Pe ].
      rewrite <- (Zlt_Qlt 0). lia.
Qed.

Lemma round_int (n : Z) :
  (0 <= n < 2 ^ 53)%Z -> round (inject_Z n) == inject_Z n.
Proof.
  intros Hn.
  assert (E : inject_Z n == inject_Z n * pow2 0).
  { change (pow2 0) with 1. lra. }
  assert (H0 : 0 <= inject_Z n) by (rewrite <- (Zle_Qle 0); lia).
  rewrite (round_proper _ _ H0 E). rewrite round_fixed by lia.
  symmetry. exact E.
Qed.

(** The largest Number below 1 is [1 - 2^-53]. *)
Lemma binary64_below_one (r : Q) :
  is_binary64 r = true -> 0 <= r -> r < 1 -> r <= 1 - pow2 (- 53).
Proof.
  intros Hb H0 H1. apply Qeq_bool_iff in Hb.
  destruct (Qlt_le_dec 0 r) as [Hp | Hz].
  2:{ assert (0 < pow2 (- 53)) by apply pow2_pos.
      assert (pow2 (- 53) <= 1) by (vm_compute; discriminate). lra. }
  rewrite round_of_pos in Hb by exact Hp.
  destruct (ilog2_spec r Hp) as [L1 L2].
  assert (Hl : (ilog2 r < 0)%Z).
  { apply pow2_lt_inv. change (pow2 0) with 1. lra. }
  destruct (Z_le_gt_dec (ilog2 r) (- 2)) as [Hs | Hs].
  - assert (pow2 (ilog2 r + 1) <= pow2 (- 1)) by (apply pow2_le; lia).
    assert (pow2 (- 1) <= 1 - pow2 (- 53)) by (vm_compute; discriminate).
    lra.
  - assert (Hi : ilog2 r = (- 1)%Z) by lia.
    unfold round_pos, ulp_exp in Hb. rewrite Hi in Hb.
    change (Z.max (- 1 - 52) (- 1074)) with (- 53)%Z in Hb.
    set (m := rne (r / pow2 (- 53))) in *.
    assert (Hm : (m < 2 ^ 53)%Z).
    { rewrite Zlt_Qlt. apply Qmult_lt_r with (pow2 (- 53)).
      - apply pow2_pos.
      - rewrite Hb. apply Qlt_le_trans with 1; [ exact H1 | ].
        vm_compute. discriminate. }
    rewrite <- Hb.
    apply Qle_trans with (inject_Z (2 ^ 53 - 1) * pow2 (- 53)).
    + apply Qmult_le_compat_r; [ | vm_compute; discriminate ].
      rewrite <- Zle_Qle. lia.
    + vm_compute. discriminate.
Qed.

(** [1000 + r * 9000], each operation rounded, for a Number [r] of the
    unit interval: at the largest such [r] the product rounds to
    [9000 - 2^-39] and the sum to [10000 - 2^-39]. *)
Lemma draw_bounds (r : Q) :
  is_binary64 r = true -> 0 <= r -> r < 1 ->
  (1000 <= Qfloor (Number_add 1000 (Number_mul r 9000)) <= 9999)%Z.
Proof.
  intros Hb H0 H1. pose proof (binary64_below_one r Hb H0 H1) as Hmax.
  unfold Number_add, Number_mul.
  assert (Hy0 : 0 <= round (r * 9000)) by (apply round_nonneg; lra).
  assert (Hy1 : round (r * 9000) <= round ((1 - pow2 (- 53)) * 9000)).
  { apply round_mono; lra. }
  assert (Hz0 : round 1000 <= round (1000 + round (r * 9000))).
  { apply round_mono; lra. }
  assert (Hz1 : round (1000 + round (r * 9000))
                <= round (1000 + round ((1 - pow2 (- 53)) * 9000))).
  { apply round_mono; lra. }
  assert (C0 : 1000 <= round 1000) by (vm_compute; discriminate).
  assert (C1 : round (1000 + round ((1 - pow2 (- 53)) * 9000)) < 10000)
    by (vm_compute; reflexivity).
  split.
  - change 1000%Z with (Qfloor (inject_Z 1000)) at 1.
    apply Qfloor_resp_le. change (inject_Z 1000) with 1000. lra.
  - assert (Hf : (Qfloor (round (1000 + round (r * 9000))) < 10000)%Z);
      [ | lia ].
    rewrite Zlt_Qlt.
    apply Qle_lt_trans with (round (1000 + round (r * 9000)));
      [ apply Qfloor_le | ].
    change (inject_Z 10000) with 10000. lra.
Qed.

(** [Math.floor(seconds / 60)] is the integer quotient: the rounded
    quotient lies between [k] and [k + 63/64], both representable. *)
Lemma minutes_exact (a : Z) :
  (0 <= a < 2 ^ 52)%Z ->
  Qfloor (Number_div (inject_Z a) 60) = (a / 60)%Z.
Proof.
  intros Ha. unfold Number_div.
  set (k := (a / 60)%Z).
  assert (Hk : (60 * k <= a < 60 * k + 60)%Z).
  { unfold k. pose proof (Z.div_mod a 60 ltac:(lia)).
    pose proof (Z.mod_pos_bound a 60 ltac:(lia)). lia. }
  assert (Hk0 : (0 <= k)%Z) by lia.
  assert (Hx0 : 0 <= inject_Z a / 60).
  { apply Qle_shift_div_l; [ reflexivity | ].
    rewrite Qmult_0_l. rewrite <- (Zle_Qle 0). lia. }
  assert (Hlo : inject_Z k <= inject_Z a / 60).
  { apply Qle_shift_div_l; [ reflexivity | ].
    change 60 with (inject_Z 60). rewrite <- inject_Z_mult, <- Zle_Qle. lia. }
  assert (Hhi : inject_Z a / 60 <= inject_Z (64 * k + 63) * pow2 (- 6)).
  { apply Qle_shift_div_r; [ reflexivity | ].
    change (pow2 (- 6)) with (1 # 64).
    assert (E : inject_Z (64 * k + 63) * (1 # 64) * 60
                == inject_Z (60 * (64 * k + 63)) * (1 # 64)).
    { rewrite (inject_Z_mult 60). change (inject_Z 60) with 60. ring. }
    rewrite E.
    assert (E2 : inject_Z a == inject_Z (64 * a) * (1 # 64)).
    { rewrite inject_Z_mult. change (inject_Z 64) with 64. field. }
    rewrite E2. apply Qmult_le_compat_r; [ | discriminate ].
    rewrite <- Zle_Qle. lia. }
  assert (R1 : inject_Z k <= round (inject_Z a / 60)).
  { rewrite <- (round_int k) by lia. apply round_mono; [ | exact Hlo ].
    rewrite <- (Zle_Qle 0). lia. }
  assert (R2 : round (inject_Z a / 60) <= inject_Z (64 * k + 63) * pow2 (- 6)).
  { rewrite <- (round_fixed (64 * k + 63) (- 6)) by lia.
    apply round_mono; [ exact Hx0 | exact Hhi ]. }
  assert (R3 : inject_Z (64 * k + 63) * pow2 (- 6) < inject_Z (k + 1)).
  { change (pow2 (- 6)) with (1 # 64).
    rewrite !inject_Z_plus, inject_Z_mult.
    change (inject_Z 64) with 64. change (inject_Z 63) with 63.
    change (inject_Z 1) with 1. lra. }
  apply Z.le_antisymm.
  - assert (Hf : (Qfloor (round (inject_Z a / 60)) < k + 1)%Z); [ | lia ].
    rewrite Zlt_Qlt.
    apply Qle_lt_trans with (round (inject_Z a / 60)); [ apply Qfloor_le | ].
    lra.
  - rewrite <- (Qfloor_Z k). apply Qfloor_resp_le. exact R1.
Qed.

Lemma Qceiling_unique (y : Q) (n : Z) :
  inject_Z (n - 1) < y -> y <= inject_Z n -> Qceiling y = n.
Proof.
  intros Hlo Hhi.
  pose proof (Qle_ceiling y) as H1. pose proof (Qceiling_lt y) as H2.
  assert (A : inject_Z (n - 1) < inject_Z (Qceiling y)) by lra.
  assert (B : inject_Z (Qceiling y - 1) < inject_Z n) by lra.
  rewrite <- Zlt_Qlt in A, B. lia.
Qed.

(** [Math.ceil(timeRemaining / 1000)]: rounding the quotient does not
    change its ceiling, so [checkOTPStatus] may take it exactly. *)
Lemma seconds_ceiling_exact (t : Z) :
  (0 <= t < 2 ^ 52)%Z ->
  Math_ceil (Number_div (inject_Z t) 1000) = Math_ceil (inject_Z t / 1000).
Proof.
  intros Ht. unfold Math_ceil, Number_div.
  set (k := (t / 1000)%Z).
  assert (Hk : (1000 * k <= t < 1000 * k + 1000)%Z).
  { unfold k. pose proof (Z.div_mod t 1000 ltac:(lia)).
    pose proof (Z.mod_pos_bound t 1000 ltac:(lia)). lia. }
  assert (Hx0 : 0 <= inject_Z t / 1000).
  { apply Qle_shift_div_l; [ reflexivity | ].
    rewrite Qmult_0_l. rewrite <- (Zle_Qle 0). lia. }
  assert (Hup : inject_Z t / 1000 <= inject_Z (k + 1)).
  { apply Qle_shift_div_r; [ reflexivity | ].
    change 1000 with (inject_Z 1000). rewrite <- inject_Z_mult, <- Zle_Qle.
    lia. }
  assert (Rup : round (inject_Z t / 1000) <= inject_Z (k + 1)).
  { rewrite <- (round_int (k + 1)) by lia. now apply round_mono. }
  destruct (Z.eq_dec t (1000 * k)%Z) as [He | Hne].
  - assert (E : inject_Z t / 1000 == inject_Z k).
    { rewrite He, inject_Z_mult. change (inject_Z 1000) with 1000. field. }
    assert (E' : round (inject_Z t / 1000) == inject_Z k).
    { rewrite (round_proper _ _ Hx0 E). apply round_int. lia. }
    rewrite (Qceiling_comp _ _ E), (Qceiling_comp _ _ E'). reflexivity.
  - assert (Hlo : inject_Z (1024 * k + 1) * pow2 (- 10) <= inject_Z t / 1000).
    { apply Qle_shift_div_l; [ reflexivity | ].
      change (pow2 (- 10)) with (1 # 1024).
      assert (E : inject_Z (1024 * k + 1) * (1 # 1024) * 1000
                  == inject_Z (1000 * (1024 * k + 1)) * (1 # 1024)).
      { rewrite (inject_Z_mult 1000). change (inject_Z 1000) with 1000. ring. }
      assert (E2 : inject_Z t == inject_Z (1024 * t) * (1 # 1024)).
      { rewrite inject_Z_mult. change (inject_Z 1024) with 1024. field. }
      rewrite E, E2. apply Qmult_le_compat_r; [ | discriminate ].
      rewrite <- Zle_Qle. lia. }
    assert (Rlo : inject_Z (1024 * k + 1) * pow2 (- 10)
                  <= round (inject_Z t / 1000)).
    { rewrite <- (round_fixed (1024 * k + 1) (- 10)) by lia.
      apply round_mono; [ | exact Hlo ].
      apply Qmult_le_0_compat; [ | discriminate ].
      rewrite <- (Zle_Qle 0). lia. }
    assert (Hgt : inject_Z (k + 1 - 1) < inject_Z (1024 * k + 1) * pow2 (- 10)).
    { change (pow2 (- 10)) with (1 # 1024).
      replace (k + 1 - 1)%Z with k by lia.
      rewrite inject_Z_plus, inject_Z_mult.
      change (inject_Z 1024) with 1024. change (inject_Z 1) with 1. lra. }
    rewrite (Qceiling_unique (round (inject_Z t / 1000)) (k + 1)) by lra.
    rewrite (Qceiling_unique (inject_Z t / 1000) (k + 1)) by lra.
    reflexivity.
Qed.

(** Ties go to the even significand, also among the subnormals. *)
Example round_ties_to_even :
  round (inject_Z (2 ^ 53 + 1)) == inject_Z (2 ^ 53) /\
  round (inject_Z (2 ^ 53 + 3)) == inject_Z (2 ^ 53 + 4) /\
  round (pow2 (- 1075)) == 0 /\
  round (3 * pow2 (- 1075)) == pow2 (- 1073) /\
  is_binary64 (1 # 10) = false /\
  is_binary64 (3602879701896397 # 36028797018963968) = true.
Proof. vm_compute. repeat split. Qed.

(** On samples, the three operations agree with the reference
    implementation of binary64 in the Standard Library. *)
Example mul_agrees_with_reference :
  let r := SpecFloat.S754_finite false 12509998964918 (- 52) in
  of_float (SpecFloat.SFmul 53 1024 r (float_of_Z 9000))
  == Number_mul (of_float r) 9000 /\
  of_float (SpecFloat.SFmul 53 1024
              (SpecFloat.SFdiv 53 1024 (float_of_Z 23) (float_of_Z 80))
              (float_of_Z 100))
  == Number_mul (Number_div 23 80) 100.
Proof. split; vm_compute; reflexivity. Qed.

Example add_agrees_with_reference :
  let r := SpecFloat.S754_finite false 12509998964918 (- 52) in
  of_float (SpecFloat.SFadd 53 1024 (float_of_Z 1000)
              (SpecFloat.SFmul 53 1024 r (float_of_Z 9000)))
  == Number_add 1000 (Number_mul (of_float r) 9000).
Proof. vm_compute. reflexivity. Qed.

Example div_agrees_with_reference :
  of_float (SpecFloat.SFdiv 53 1024 (float_of_Z 1) (float_of_Z 3))
  == Number_div 1 3 /\
  of_float (SpecFloat.SFdiv 53 1024 (float_of_Z 299) (float_of_Z 60))
  == Number_div 299 60.
Proof. split; vm_compute; reflexivity. Qed.

End Binary64Facts.

(** ** Facts about the primitives *)

Section Primitives.

Lemma four_digit_table :
  forallb four_digit_numeral (seq 0 (Z.to_nat 9000)) = true.
Proof. vm_compute. reflexivity. Qed.

Lemma Number_toString_four_digits (n : Z) :
  1000 <= n <= 9999 ->
  String.length (Number_toString n) = 4%nat /\
  numeric (Number_toString n) = true.
Proof.
  intros Hn.
  pose proof four_digit_table as Htab.
  rewrite forallb_forall in Htab.
  specialize (Htab (Z.to_nat (n - 1000))).
  unfold four_digit_numeral in Htab.
  replace (1000 + Z.of_nat (Z.to_nat (n - 1000))) with n in Htab by lia.
  assert (Hin : In (Z.to_nat (n - 1000)) (seq 0 (Z.to_nat 9000)))
    by (apply in_seq; lia).
  apply Htab in Hin. apply andb_prop in Hin as [Hlen Hnum].
  split; [ now apply Nat.eqb_eq | exact Hnum ].
Qed.

(** [Math.floor(1000 + Math.random() * 9000)] stays within four
    digits. *)
Lemma draw_range (r : unit_interval) :
  1000 <= Math_floor (Number_add 1000 (Number_mul (ui_val r) 9000)) <= 9999.
Proof.
  destruct r as [q Hq]. cbn [ui_val].
  apply andb_prop in Hq as [Hq Hb]. apply andb_prop in Hq as [Hlo Hhi].
  apply Qle_bool_iff in Hlo.
  apply negb_true_iff in Hhi.
  assert (Hlt : (q < 1)%Q).
  { apply Qnot_le_lt. intro Hle. apply Qle_bool_iff in Hle. congruence. }
  unfold Math_floor. now apply draw_bounds.
Qed.

(** At the draw [near_1025] the rounding of the product decides the
    code: the exact value of [1000 + r * 9000] has floor 1024. *)
Example generate_at_a_rounded_draw :
  fst (generateOTP 1 "9876543210"
         (fresh (K := Z) 0 (fun _ => near_1025) (fun _ => true)))
  = "1025" /\
  Qfloor (1000 + ui_val near_1025 * 9000)%Q = 1024.
Proof. split; vm_compute; reflexivity. Qed.

End Primitives.

(** ** Equations of the methods, branch by branch *)

Section Equations.

Context {K : Type} `{Countable K}.
Implicit Types (w : @World K _ _) (k : K) (d : OtpData).

Lemma generateOTP_eq w k p :
  generateOTP k p w =
  (next_code w,
   let m := <[k := fresh_record w p]> (otpStore w) in
   mkWorld m (image m w) ((p, next_code w, k) :: outbox w) (clock w)
           (entropy w) (S (draws w)) (accepts w) (S (writes w))).
Proof. reflexivity. Qed.

Lemma verifyOTP_missing w k i :
  otpStore w !! k = None ->
  verifyOTP k i w = (mkVerifyResult false "OTP not found or expired" 0, w).
Proof.
  intros Hk. unfold verifyOTP, bind, Map_get. rewrite Hk. reflexivity.
Qed.

Lemma verifyOTP_expired w k d i :
  otpStore w !! k = Some d ->
  expiresAt d < clock w ->
  verifyOTP k i w =
  (mkVerifyResult false "OTP has expired" 0,
   let m := delete k (otpStore w) in
   mkWorld m (image m w) (outbox w) (clock w) (entropy w) (draws w)
           (accepts w) (S (writes w))).
Proof.
  intros Hk Hexp. unfold verifyOTP, bind, Map_get. rewrite Hk.
  cbn [Date_now]. destruct (Z.gtb_spec (clock w) (expiresAt d)); [ | lia ].
  reflexivity.
Qed.

Lemma verifyOTP_exhausted w k d i :
  otpStore w !! k = Some d ->
  clock w <= expiresAt d ->
  maxAttempts <= attempts d ->
  verifyOTP k i w =
  (mkVerifyResult false "Maximum OTP attempts exceeded" 0, w).
Proof.
  intros Hk Hlive Hmax. unfold verifyOTP, bind, Map_get. rewrite Hk.
  cbn [Date_now]. destruct (Z.gtb_spec (clock w) (expiresAt d)); [ lia | ].
  destruct (Z.geb_spec (attempts d) maxAttempts); [ | lia ].
  reflexivity.
Qed.

Lemma verifyOTP_match w k d :
  otpStore w !! k = Some d ->
  clock w <= expiresAt d ->
  attempts d < maxAttempts ->
  verifyOTP k (otp d) w =
  (mkVerifyResult true "OTP verified successfully"
                  (maxAttempts - (attempts d + 1)),
   let m := <[k := accepted (clock w) d]> (otpStore w) in
   mkWorld m (image m w) (outbox w) (clock w) (entropy w) (draws w)
           (accepts w) (S (writes w))).
Proof.
  intros Hk Hlive Hleft. unfold verifyOTP, bind, Map_get. rewrite Hk.
  cbn [Date_now]. destruct (Z.gtb_spec (clock w) (expiresAt d)); [ lia | ].
  destruct (Z.geb_spec (attempts d) maxAttempts); [ lia | ].
  cbn [Map_set set_attempts otp]. rewrite String.eqb_refl.
  cbn [with_store otpStore localStorage outbox clock entropy draws
       Map_set saveToStorage ret set_verified set_verifiedAt set_attempts
       otp phone attempts generatedAt expiresAt verified verifiedAt].
  rewrite !insert_insert_eq. reflexivity.
Qed.

Lemma verifyOTP_mismatch w k d i :
  otpStore w !! k = Some d ->
  clock w <= expiresAt d ->
  attempts d < maxAttempts ->
  i <> otp d ->
  verifyOTP k i w =
  (let remaining := maxAttempts - (attempts d + 1) in
   mkVerifyResult false
     ("Invalid OTP. " ++ Number_toString remaining ++ " attempt"
      ++ (if remaining =? 1 then "" else "s") ++ " remaining")
     remaining,
   let m := <[k := rejected d]> (otpStore w) in
   mkWorld m (image m w) (outbox w) (clock w) (entropy w) (draws w)
           (accepts w) (S (writes w))).
Proof.
  intros Hk Hlive Hleft Hne. unfold verifyOTP, bind, Map_get. rewrite Hk.
  cbn [Date_now]. destruct (Z.gtb_spec (clock w) (expiresAt d)); [ lia | ].
  destruct (Z.geb_spec (attempts d) maxAttempts); [ lia | ].
  cbn [Map_set set_attempts otp].
  destruct (String.eqb_spec (otp d) i) as [Heq | _]; [ congruence | ].
  cbn [with_store otpStore localStorage outbox clock entropy draws
       Map_set saveToStorage ret set_attempts
       otp phone attempts generatedAt expiresAt verified verifiedAt].
  rewrite !insert_insert_eq. reflexivity.
Qed.

Lemma checkOTPStatus_pure w k : snd (checkOTPStatus k w) = w.
Proof.
  unfold checkOTPStatus, bind, Map_get.
  destruct (otpStore w !! k); reflexivity.
Qed.

End Equations.

(** ** The sweep and the statistics as operations on the store *)

Section Aggregates.
Context {K : Type} `{Countable K}.
Implicit Types (w : @World K _ _) (k : K) (d : OtpData).
Implicit Types (m : gmap K OtpData) (l : list (K * OtpData)).

Lemma sweep_body_eq now count e w :
  sweep_body now count e w =
  (if past_grace now (snd e) then count + 1 else count,
   with_store (sweep_step now (otpStore w) e) w).
Proof.
  unfold sweep_body, sweep_step, past_grace.
  destruct (_ >? _); destruct w; reflexivity.
Qed.

Lemma sweep_loop now l : forall count w,
  for_of (sweep_body now) count l w =
  (count + Z.of_nat (length (List.filter (fun e => past_grace now (snd e)) l)),
   with_store (fold_left (sweep_step now) l (otpStore w)) w).
Proof.
  induction l as [ | e l IH ]; intros count w.
  - destruct w. cbn. rewrite Z.add_0_r. reflexivity.
  - cbn [for_of fold_left List.filter]. unfold bind at 1.
    rewrite sweep_body_eq, IH.
    destruct (past_grace now (snd e)); destruct w as [m0 ls ob ck en dr ac wr];
      cbn [length with_store otpStore]; f_equal; lia.
Qed.

Lemma sweep_fold_lookup now l : forall m k,
  fold_left (sweep_step now) l m !! k =
  if existsb (fun e => bool_decide (fst e = k) && past_grace now (snd e)) l
  then None else m !! k.
Proof.
  induction l as [ | e l IH ]; intros m k; [ reflexivity | ].
  cbn [fold_left existsb]. rewrite IH. unfold sweep_step.
  destruct (existsb _ l); [ now rewrite orb_true_r | ].
  rewrite orb_false_r.
  destruct (past_grace now (snd e)); [ | now rewrite andb_false_r ].
  rewrite andb_true_r. case_bool_decide as Hk.
  - subst k. apply lookup_delete_eq.
  - now apply lookup_delete_ne.
Qed.

Lemma sweep_store_lookup now m k :
  sweep_store now m !! k =
  match m !! k with
  | Some d => if past_grace now d then None else Some d
  | None => None
  end.
Proof.
  unfold sweep_store. rewrite sweep_fold_lookup.
  destruct (existsb _ _) eqn:Hex.
  - apply existsb_exists in Hex as [[k' d] [Hin Hp]].
    apply andb_prop in Hp as [Hk Hp]. cbn in Hk, Hp.
    apply bool_decide_eq_true in Hk. subst k'.
    apply list_elem_of_In, elem_of_map_to_list in Hin.
    rewrite Hin, Hp. reflexivity.
  - destruct (m !! k) as [d | ] eqn:Hk; [ | reflexivity ].
    destruct (past_grace now d) eqn:Hp; [ | reflexivity ].
    exfalso. apply not_true_iff_false in Hex. apply Hex.
    apply existsb_exists. exists (k, d). split.
    + apply list_elem_of_In, elem_of_map_to_list. exact Hk.
    + cbn. rewrite Hp. now rewrite bool_decide_eq_true_2.
Qed.

Lemma cleanupExpiredOTPs_eq w :
  cleanupExpiredOTPs w =
  (tt,
   let m := sweep_store (clock w) (otpStore w) in
   mkWorld m
     (if swept_count (clock w) (otpStore w) >? 0 then image m w
      else localStorage w)
     (outbox w) (clock w) (entropy w) (draws w) (accepts w)
     (if swept_count (clock w) (otpStore w) >? 0 then S (writes w)
      else writes w)).
Proof.
  unfold cleanupExpiredOTPs, bind, Date_now, Map_entries.
  change (for_of _ 0 (map_to_list (otpStore w)) w)
    with (for_of (sweep_body (clock w)) 0 (map_to_list (otpStore w)) w).
  rewrite sweep_loop. rewrite Z.add_0_l.
  fold (swept_count (clock w) (otpStore w)).
  fold (sweep_store (clock w) (otpStore w)).
  destruct (swept_count _ _ >? 0); destruct w; reflexivity.
Qed.

Lemma swept_none now m :
  (forall k d, m !! k = Some d -> past_grace now d = false) ->
  List.filter (fun e : K * OtpData => past_grace now (snd e)) (map_to_list m)
  = [].
Proof.
  intros Hall.
  assert (Hl : forall e, In e (map_to_list m) -> past_grace now (snd e) = false).
  { intros [k d] Hin. apply list_elem_of_In, elem_of_map_to_list in Hin.
    exact (Hall k d Hin). }
  induction (map_to_list m) as [ | e l IH ]; [ reflexivity | ].
  cbn [List.filter]. rewrite (Hl e (or_introl eq_refl)).
  apply IH. intros e' He'. apply Hl. now right.
Qed.

Lemma sweep_store_fixed now m :
  (forall k d, m !! k = Some d -> past_grace now d = false) ->
  sweep_store now m = m.
Proof.
  intros Hall. apply map_eq. intros k. rewrite sweep_store_lookup.
  destruct (m !! k) as [d | ] eqn:Hk; [ | reflexivity ].
  now rewrite (Hall k d Hk).
Qed.

Lemma cleanupExpiredOTPs_fixed w :
  (forall k d, otpStore w !! k = Some d -> past_grace (clock w) d = false) ->
  cleanupExpiredOTPs w = (tt, w).
Proof.
  intros Hall. rewrite cleanupExpiredOTPs_eq. cbv zeta.
  unfold swept_count. rewrite (swept_none _ _ Hall).
  rewrite (sweep_store_fixed _ _ Hall). destruct w; reflexivity.
Qed.

Lemma sweep_store_settled now m k d :
  sweep_store now m !! k = Some d -> past_grace now d = false.
Proof.
  rewrite sweep_store_lookup. destruct (m !! k) as [d' | ]; [ | discriminate ].
  destruct (past_grace now d') eqn:Hp; [ discriminate | ].
  intros [= <-]. exact Hp.
Qed.

Lemma Array_filter_pure {A} (f : A -> @M K _ _ bool) (g : World -> A -> bool) :
  (forall x w, f x w = (g w x, w)) ->
  forall (l : list A) w, Array_filter f l w = (List.filter (g w) l, w).
Proof.
  intros Hf l w. induction l as [ | x l IH ]; [ reflexivity | ].
  cbn [Array_filter List.filter]. unfold bind. rewrite Hf, IH.
  destruct (g w x); reflexivity.
Qed.

Lemma length_filter_values (p : OtpData -> bool) l :
  length (List.filter p (l.*2)) =
  length (filter (fun e : K * OtpData => p (snd e) = true) l).
Proof.
  induction l as [ | e l IH ]; [ reflexivity | ].
  cbn [fmap list_fmap List.filter]. rewrite filter_cons.
  destruct (p (snd e)) eqn:Hp.
  - rewrite decide_True by reflexivity. cbn [length]. now rewrite IH.
  - rewrite decide_False by discriminate. exact IH.
Qed.

Lemma count_values (p : OtpData -> bool) m :
  Z.of_nat (length (List.filter p ((map_to_list m).*2))) = count_records p m.
Proof.
  unfold count_records. f_equal.
  rewrite length_filter_values, map_filter_alt.
  rewrite map_size_list_to_map; [ reflexivity | ].
  apply (sublist_NoDup _ ((map_to_list m).*1)).
  - apply NoDup_fst_map_to_list.
  - apply fmap_sublist, sublist_filter.
Qed.

Lemma getStatistics_eq w :
  getStatistics w =
  (let total := Z.of_nat (size (otpStore w)) in
   let verified := count_records verified (otpStore w) in
   let expired := count_records (past_expiry (clock w)) (otpStore w) in
   mkStatistics total verified expired (total - verified - expired)
                (success_rate total verified),
   w).
Proof.
  unfold getStatistics, bind, Map_size, Map_values.
  rewrite (Array_filter_pure _ (fun _ d => verified d))
    by reflexivity.
  rewrite (Array_filter_pure _ (fun w d => past_expiry (clock w) d))
    by reflexivity.
  rewrite !count_values. reflexivity.
Qed.

End Aggregates.

(** ** Counting records *)

Section Counting.
Context {K : Type} `{Countable K}.
Implicit Types (w : @World K _ _) (k : K) (d : OtpData).
Implicit Types (m : gmap K OtpData).

Lemma count_records_empty (p : OtpData -> bool) :
  count_records p (∅ : gmap K OtpData) = 0.
Proof. unfold count_records. now rewrite map_filter_empty, map_size_empty. Qed.

Lemma count_records_insert (p : OtpData -> bool) m k d :
  m !! k = None ->
  count_records p (<[k := d]> m) =
  (if p d then 1 else 0) + count_records p m.
Proof.
  intros Hk. unfold count_records. rewrite map_filter_insert. cbn [snd].
  destruct (p d) eqn:Hp.
  - rewrite decide_True by reflexivity.
    rewrite map_size_insert_None; [ lia | ].
    apply map_lookup_filter_None. now left.
  - rewrite decide_False by discriminate.
    now rewrite delete_id.
Qed.

Lemma count_records_le (p : OtpData -> bool) m :
  0 <= count_records p m <= Z.of_nat (size m).
Proof.
  unfold count_records. split; [ lia | ].
  apply inj_le. apply map_subseteq_size, map_filter_subseteq.
Qed.

End Counting.

(** ** Rounding to one decimal *)

Section Rounding.

Local Open Scope Q_scope.

Lemma tenths_nearest (x : Q) :
  inject_Z (2 * tenths x - 1) <= 20 * x < inject_Z (2 * tenths x + 1).
Proof.
  unfold tenths.
  pose proof (Qfloor_le (x * 10 + (1 # 2))) as Hlo.
  pose proof (Qlt_floor (x * 10 + (1 # 2))) as Hhi.
  unfold Z.sub. rewrite !inject_Z_plus, inject_Z_mult in *.
  change (inject_Z 2) with 2. change (inject_Z 1) with 1 in *.
  change (inject_Z (- (1))) with (- (1)).
  set (f := inject_Z (Qfloor (x * 10 + (1 # 2)))) in *. clearbody f.
  split; lra.
Qed.

Lemma toFixed1_nonneg (x : Q) :
  0 <= x -> toFixed1 x = render_tenths (tenths x).
Proof.
  intros Hx. unfold toFixed1.
  replace (Qle_bool 0 x) with true; [ reflexivity | ].
  symmetry. now apply Qle_bool_iff.
Qed.

Lemma rate_nonneg (v t : Z) :
  (0 <= v)%Z -> (0 < t)%Z ->
  0 <= Number_mul (Number_div (inject_Z v) (inject_Z t)) 100.
Proof.
  intros Hv Ht. unfold Number_mul, Number_div.
  apply round_nonneg. apply Qmult_le_0_compat; [ | discriminate ].
  apply round_nonneg. apply Qle_shift_div_l.
  - rewrite <- (Zlt_Qlt 0). exact Ht.
  - rewrite Qmult_0_l. rewrite <- (Zle_Qle 0). exact Hv.
Qed.

(** 23 verified of 80: the Number computed for the rate lies below
    28.75, which is the exact rate, and prints as "28.7". *)
Example success_rate_23_of_80 :
  success_rate 80 23 = VString "28.7" /\
  toFixed1 (inject_Z 23 / inject_Z 80 * 100) = "28.8"%string.
Proof. split; vm_compute; reflexivity. Qed.

End Rounding.

(** ** The bound on attempts is an invariant *)

Section Invariant.
Context {K : Type} `{Countable K}.
Implicit Types (w : @World K _ _) (k : K) (d : OtpData).
Implicit Types (m : gmap K OtpData).

Ltac verify_cases w k i d Hk :=
  destruct (otpStore w !! k) as [d | ] eqn:Hk;
  [ destruct (Z_lt_le_dec (expiresAt d) (clock w));
    [ rewrite (verifyOTP_expired w k d i) by assumption
    | destruct (Z_le_gt_dec maxAttempts (attempts d));
      [ rewrite (verifyOTP_exhausted w k d i) by assumption
      | destruct (string_dec i (otp d)) as [-> | ];
        [ rewrite (verifyOTP_match w k d) by (assumption || lia)
        | rewrite (verifyOTP_mismatch w k d i) by (assumption || lia) ] ] ]
  | rewrite (verifyOTP_missing w k i) by assumption ].

Lemma verifyOTP_bounded w k i :
  attempts_bounded w -> attempts_bounded (snd (verifyOTP k i w)).
Proof.
  intros Hb. verify_cases w k i d Hk; cbn [snd]; try exact Hb;
    intros k' d'; cbn [otpStore].
  - intros Hd'. apply lookup_delete_Some in Hd' as [_ Hd']. eauto.
  - pose proof (Hb k d Hk) as Hd.
    rewrite lookup_insert. case_decide.
    + intros [= <-]. cbn. lia.
    + eauto.
  - pose proof (Hb k d Hk) as Hd.
    rewrite lookup_insert. case_decide.
    + intros [= <-]. cbn. lia.
    + eauto.
Qed.

Lemma generateOTP_bounded w k p :
  attempts_bounded w -> attempts_bounded (snd (generateOTP k p w)).
Proof.
  intros Hb k' d'. rewrite generateOTP_eq. cbn [snd otpStore].
  rewrite lookup_insert. case_decide.
  - intros [= <-]. cbn. unfold maxAttempts. lia.
  - eauto.
Qed.

Lemma exec_bounded (c : Call) w :
  attempts_bounded w -> attempts_bounded (exec c w).
Proof.
  intros Hb. destruct c as [k p | k i | k | k | | | dt]; cbn [exec].
  - now apply generateOTP_bounded.
  - now apply verifyOTP_bounded.
  - unfold resendOTP, bind, Map_get.
    destruct (otpStore w !! k) as [d | ]; [ | exact Hb ].
    pose proof (generateOTP_bounded w k (phone d) Hb) as Hg.
    destruct (generateOTP k (phone d) w). exact Hg.
  - now rewrite checkOTPStatus_pure.
  - rewrite cleanupExpiredOTPs_eq. intros k d. cbn [snd otpStore].
    rewrite sweep_store_lookup.
    destruct (otpStore w !! k) as [d' | ] eqn:Hk; [ | discriminate ].
    destruct (past_grace _ _); [ discriminate | ].
    intros [= <-]. eauto.
  - now rewrite getStatistics_eq.
  - exact Hb.
Qed.

Lemma run_bounded (cs : list Call) : forall w,
  attempts_bounded w -> attempts_bounded (run cs w).
Proof.
  induction cs as [ | c cs IH ]; intros w Hb; [ exact Hb | ].
  cbn [run fold_left]. apply IH. now apply exec_bounded.
Qed.

Lemma reachable_bounded w : reachable w -> attempts_bounded w.
Proof.
  intros (t0 & rnd & ok & cs & ->). apply run_bounded.
  intros k d. cbn. rewrite lookup_empty. discriminate.
Qed.

Lemma consumed_wrong_code k c e n i w :
  n < maxAttempts -> i <> c ->
  consumed k c e n w -> consumed k c e (n + 1) (snd (verifyOTP k i w)).
Proof.
  intros Hn Hi. unfold consumed at 1.
  verify_cases w k i d Hk; cbn [snd]; unfold consumed; cbn [otpStore].
  - intros _. now rewrite lookup_delete_eq.
  - rewrite Hk. intros (Hc & He & Ha). repeat split; try assumption. lia.
  - intros (Hc & _). congruence.
  - rewrite lookup_insert_eq. intros (Hc & He & Ha). cbn.
    repeat split; try assumption. lia.
  - rewrite Hk. trivial.
Qed.

Lemma consumed_wait k c e n dt w :
  consumed k c e n w -> consumed k c e n (snd (wait dt w)).
Proof. intros Hc. exact Hc. Qed.

Lemma consumed_all k c e i w :
  consumed k c e maxAttempts w ->
  success (fst (verifyOTP k i w)) = false /\
  remainingAttempts (fst (verifyOTP k i w)) = 0 /\
  (is_Some (otpStore w !! k) -> clock w <= e ->
   verifyOTP k i w =
   (mkVerifyResult false "Maximum OTP attempts exceeded" 0, w)).
Proof.
  unfold consumed.
  destruct (otpStore w !! k) as [d | ] eqn:Hk.
  - intros (Hc & He & Ha).
    destruct (Z_lt_le_dec (expiresAt d) (clock w)).
    + rewrite (verifyOTP_expired w k d i) by assumption.
      repeat split. intros _ Hlive. lia.
    + rewrite (verifyOTP_exhausted w k d i) by assumption.
      repeat split.
  - intros _. rewrite (verifyOTP_missing w k i) by assumption.
    repeat split. intros [x Hx]. discriminate.
Qed.

End Invariant.

(** * The claims *)

Section Claims.

Context {K : Type} `{Countable K}.
Implicit Types (w : @World K _ _) (k : K) (d : OtpData).
Implicit Types (m : gmap K OtpData).

(** C1, as amended.  On a live record (present, not past its expiry,
    fewer than [maxAttempts] attempts consumed) [verifyOTP] with the
    stored code succeeds, stores the record with [verified] set and
    [verifiedAt] equal to the current time, and returns
    [remainingAttempts = maxAttempts - (attempts + 1)]: the attempt
    just made is counted.  Right after [generateOTP] the first
    verification with the returned code therefore leaves 2 attempts. *)
Theorem verify_correct_code_remaining :
  (forall w k d,
      otpStore w !! k = Some d ->
      clock w <= expiresAt d ->
      attempts d < maxAttempts ->
      let r := fst (verifyOTP k (otp d) w) in
      let w' := snd (verifyOTP k (otp d) w) in
      success r = true /\
      remainingAttempts r = maxAttempts - (attempts d + 1) /\
      otpStore w' !! k = Some (accepted (clock w) d) /\
      verified (accepted (clock w) d) = true /\
      verifiedAt (accepted (clock w) d) = Some (clock w)) /\
  (forall w k p,
      let code := fst (generateOTP k p w) in
      let w1 := snd (generateOTP k p w) in
      success (fst (verifyOTP k code w1)) = true /\
      remainingAttempts (fst (verifyOTP k code w1)) = 2).
Proof.
  split.
  - intros w k d Hk Hlive Hleft. cbv zeta.
    rewrite (verifyOTP_match w k d Hk Hlive Hleft). cbn.
    rewrite lookup_insert_eq. repeat split.
  - intros w k p. cbv zeta. rewrite generateOTP_eq. cbn [fst snd].
    set (w1 := mkWorld _ _ _ _ _ _ _ _).
    assert (Hk : otpStore w1 !! k = Some (fresh_record w p))
      by apply lookup_insert_eq.
    change (next_code w) with (otp (fresh_record w p)).
    rewrite (verifyOTP_match w1 k (fresh_record w p) Hk);
      [ split; reflexivity | | ]; cbn; unfold otpExpiry, maxAttempts; lia.
Qed.

(** C2.  In every world reachable from a fresh manager by calls to
    generate, verify, resend, checkStatus, the sweep, statistics and
    by the passing of time, every record has between 0 and
    [maxAttempts] attempts, and each call preserves that bound.  On a
    record that has reached [maxAttempts], [verifyOTP] fails whatever
    the code, with no remaining attempts, and leaves the record as it
    was (or deletes it, when it is past its expiry); while the record
    is live the call changes nothing at all.  After three wrong codes
    on a new record, however much time passes in between, the right
    code is refused, with the maximum-attempts message whenever the
    record is still there and not past its expiry. *)
Theorem attempts_never_exceed_max :
  (forall w, reachable w -> attempts_bounded w) /\
  (forall (c : Call) w, attempts_bounded w -> attempts_bounded (exec c w)) /\
  (forall w k d i,
      otpStore w !! k = Some d ->
      maxAttempts <= attempts d ->
      let r := fst (verifyOTP k i w) in
      let w' := snd (verifyOTP k i w) in
      success r = false /\
      remainingAttempts r = 0 /\
      (otpStore w' !! k = Some d \/ otpStore w' !! k = None) /\
      (clock w <= expiresAt d ->
       verifyOTP k i w =
       (mkVerifyResult false "Maximum OTP attempts exceeded" 0, w))) /\
  (forall w k d i1 i2 i3 t1 t2 t3,
      otpStore w !! k = Some d ->
      attempts d = 0 ->
      i1 <> otp d -> i2 <> otp d -> i3 <> otp d ->
      let w3 := run [CVerify k i1; CWait t1; CVerify k i2; CWait t2;
                     CVerify k i3; CWait t3] w in
      success (fst (verifyOTP k (otp d) w3)) = false /\
      (is_Some (otpStore w3 !! k) -> clock w3 <= expiresAt d ->
       verifyOTP k (otp d) w3 =
       (mkVerifyResult false "Maximum OTP attempts exceeded" 0, w3))).
Proof.
  split; [ exact reachable_bounded | ].
  split; [ exact exec_bounded | ].
  split.
  - intros w k d i Hk Hmax. cbv zeta.
    destruct (Z_lt_le_dec (expiresAt d) (clock w)) as [Hexp | Hlive].
    + rewrite (verifyOTP_expired w k d i Hk Hexp). cbn.
      rewrite lookup_delete_eq. repeat split; [ now right | lia ].
    + rewrite (verifyOTP_exhausted w k d i Hk Hlive Hmax). cbn.
      repeat split. now left.
  - intros w k d i1 i2 i3 t1 t2 t3 Hk H0 Hi1 Hi2 Hi3. cbv zeta.
    assert (C0 : consumed k (otp d) (expiresAt d) 0 w).
    { unfold consumed. rewrite Hk. repeat split. lia. }
    cbn [run fold_left exec].
    apply (consumed_wrong_code k _ _ 0 i1) in C0; [ | reflexivity | exact Hi1 ].
    apply (consumed_wait k _ _ _ t1) in C0.
    apply (consumed_wrong_code k _ _ _ i2) in C0; [ | reflexivity | exact Hi2 ].
    apply (consumed_wait k _ _ _ t2) in C0.
    apply (consumed_wrong_code k _ _ _ i3) in C0; [ | reflexivity | exact Hi3 ].
    apply (consumed_wait k _ _ _ t3) in C0.
    destruct (consumed_all k _ _ (otp d) _ C0) as (Hs & _ & Hm).
    split; [ exact Hs | exact Hm ].
Qed.

(** C3.  When the record of [k] exists and its expiry is in the past,
    [verifyOTP] with any code deletes exactly that record, fails with
    [remainingAttempts = 0] and the message "OTP has expired" (never
    the maximum-attempts message, whatever [attempts] is), and a
    [checkOTPStatus] that follows reports [exists = false]. *)
Theorem verify_expired_deletes w k d i :
  otpStore w !! k = Some d ->
  expiresAt d < clock w ->
  let r := fst (verifyOTP k i w) in
  let w' := snd (verifyOTP k i w) in
  success r = false /\
  remainingAttempts r = 0 /\
  message r = "OTP has expired" /\
  index 0 "expired" (message r) <> None /\
  message r <> "Maximum OTP attempts exceeded" /\
  otpStore w' = delete k (otpStore w) /\
  otpStore w' !! k = None /\
  st_exists (fst (checkOTPStatus k w')) = false.
Proof.
  intros Hk Hexp. cbv zeta. rewrite (verifyOTP_expired w k d i Hk Hexp).
  cbn [fst snd success remainingAttempts message otpStore].
  repeat split; try discriminate.
  - apply lookup_delete_eq.
  - unfold checkOTPStatus, bind, Map_get. cbn [otpStore].
    rewrite lookup_delete_eq. reflexivity.
Qed.

(** C4.  [generateOTP] always returns: its code is the decimal numeral
    of a number between 1000 and 9999, four characters, all digits;
    and the store afterwards maps the order to a record with that
    code, the given phone, [attempts = 0], [verified = false],
    [generatedAt = now] and [expiresAt = now + 5 minutes], replacing
    whatever was there. *)
Theorem generate_fresh_record w k p :
  let code := fst (generateOTP k p w) in
  let w' := snd (generateOTP k p w) in
  (exists n, 1000 <= n <= 9999 /\ code = Number_toString n) /\
  String.length code = 4%nat /\
  numeric code = true /\
  otpStore w' =
    <[k := mkOtpData code p 0 (clock w) (clock w + 5 * 60 * 1000) false None]>
      (otpStore w) /\
  otpStore w' !! k =
    Some (mkOtpData code p 0 (clock w) (clock w + 5 * 60 * 1000) false None).
Proof.
  cbv zeta. rewrite generateOTP_eq. cbn [fst snd otpStore].
  pose proof (draw_range (entropy w (draws w))) as Hr.
  split; [ | split; [ | split; [ | split ] ] ].
  - eexists. split; [ exact Hr | reflexivity ].
  - now apply Number_toString_four_digits.
  - now apply Number_toString_four_digits.
  - reflexivity.
  - apply lookup_insert_eq.
Qed.

(** C5.  [resendOTP] fails exactly when the order has no record.  When
    it has one, whatever its expiry and attempts, the call is
    [generateOTP] on the stored phone: it returns the new code, sends
    it to that phone, and stores a record with [attempts = 0],
    [verified = false] and an expiry five minutes from now. *)
Theorem resend_regenerates w k :
  (rs_success (fst (resendOTP k w)) = false <-> otpStore w !! k = None) /\
  (forall d,
      otpStore w !! k = Some d ->
      resendOTP k w =
      (mkResendResult true "New OTP sent successfully"
                      (Some (fst (generateOTP k (phone d) w))),
       snd (generateOTP k (phone d) w)) /\
      exists code,
        rs_otp (fst (resendOTP k w)) = Some code /\
        otpStore (snd (resendOTP k w)) !! k =
          Some (mkOtpData code (phone d) 0 (clock w) (clock w + otpExpiry)
                          false None) /\
        head (outbox (snd (resendOTP k w))) = Some (phone d, code, k)).
Proof.
  unfold resendOTP, bind, Map_get.
  destruct (otpStore w !! k) as [d | ] eqn:Hk.
  - rewrite generateOTP_eq. split.
    + split; discriminate.
    + intros d' [= <-]. split; [ reflexivity | ].
      exists (next_code w). cbn. rewrite lookup_insert_eq. repeat split.
  - split.
    + split; reflexivity.
    + discriminate.
Qed.

(** C6.  [cleanupExpiredOTPs] deletes a record exactly when
    [expiresAt + 300000 < now], whatever its [verified] flag, keeps
    every other record as it is and creates none; run again at the
    same time it changes nothing. *)
Theorem sweep_exact_idempotent w :
  let w' := snd (cleanupExpiredOTPs w) in
  (forall k d,
      otpStore w !! k = Some d ->
      (expiresAt d + 300000 < clock w -> otpStore w' !! k = None) /\
      (clock w <= expiresAt d + 300000 -> otpStore w' !! k = Some d)) /\
  (forall k, otpStore w !! k = None -> otpStore w' !! k = None) /\
  clock w' = clock w /\
  cleanupExpiredOTPs w' = (tt, w').
Proof.
  cbv zeta. rewrite cleanupExpiredOTPs_eq. cbn [snd otpStore clock].
  split; [ | split; [ | split ] ].
  - intros k d Hk. rewrite sweep_store_lookup, Hk. unfold past_grace.
    split; intros Hc.
    + destruct (Z.gtb_spec (clock w) (expiresAt d + 300000)); [ reflexivity | lia ].
    + destruct (Z.gtb_spec (clock w) (expiresAt d + 300000)); [ lia | reflexivity ].
  - intros k Hk. now rewrite sweep_store_lookup, Hk.
  - reflexivity.
  - apply cleanupExpiredOTPs_fixed. cbn [otpStore clock].
    intros k d. apply sweep_store_settled.
Qed.

(** A store whose only record is verified and past its expiry. *)
Lemma singleton_verified_expired w k d :
  otpStore w = {[k := d]} ->
  verified d = true ->
  expiresAt d < clock w ->
  let s := fst (getStatistics w) in
  total s = 1 /\ verifiedCount s = 1 /\ expiredCount s = 1 /\ active s = -1.
Proof.
  intros Hst Hv He. cbv zeta. rewrite getStatistics_eq, Hst.
  cbn [fst total verifiedCount expiredCount active].
  rewrite map_size_singleton. rewrite <- insert_empty.
  rewrite !count_records_insert, !count_records_empty by apply lookup_empty.
  unfold past_expiry. rewrite Hv.
  destruct (Z.gtb_spec (clock w) (expiresAt d)); [ | lia ].
  repeat split.
Qed.

(** C7, as amended.  [getStatistics] changes nothing; [total] is the
    number of records, [verified] the number of records with the flag
    set, [expired] the number of records with [expiresAt < now] (no
    grace), [active = total - verified - expired]; [successRate] is
    the number 0 when there is no record, and otherwise the text
    [n / 10] with one decimal, for the integer [n] with [n / 10]
    nearest to the Number that [verified / total * 100] evaluates to,
    quotient and product each rounded to binary64 (of two nearest, the
    larger).  With two records, one verified and not past its expiry,
    the other unverified and past it, the result is total 2,
    verified 1, expired 1, active 0, successRate "50.0". *)
Theorem statistics_aggregate w :
  let s := fst (getStatistics w) in
  snd (getStatistics w) = w /\
  total s = Z.of_nat (size (otpStore w)) /\
  verifiedCount s =
    Z.of_nat (size (filter (fun e : K * OtpData => verified (snd e) = true)
                           (otpStore w))) /\
  expiredCount s =
    Z.of_nat (size (filter (fun e : K * OtpData => expiresAt (snd e) < clock w)
                           (otpStore w))) /\
  active s = total s - verifiedCount s - expiredCount s /\
  (total s = 0 -> successRate s = VNumber 0%Q) /\
  (0 < total s ->
   exists n,
     successRate s = VString (render_tenths n) /\
     (inject_Z (2 * n - 1)
      <= 20 * Number_mul (Number_div (inject_Z (verifiedCount s))
                                     (inject_Z (total s))) 100
      < inject_Z (2 * n + 1))%Q) /\
  (forall k1 k2 d1 d2,
      k1 <> k2 ->
      otpStore w = <[k1 := d1]> {[k2 := d2]} ->
      verified d1 = true -> clock w <= expiresAt d1 ->
      verified d2 = false -> expiresAt d2 < clock w ->
      s = mkStatistics 2 1 1 0 (VString "50.0")).
Proof.
  cbv zeta. rewrite getStatistics_eq.
  cbn [fst snd total verifiedCount expiredCount active successRate].
  split; [ reflexivity | ].
  split; [ reflexivity | ].
  split; [ reflexivity | ].
  split.
  { unfold count_records. do 2 f_equal. apply map_filter_ext.
    intros k d _. cbn. unfold past_expiry. rewrite Z.gtb_gt. lia. }
  split; [ reflexivity | ].
  split.
  { intros Hz. unfold success_rate. now rewrite Hz. }
  split.
  { intros Hpos. unfold success_rate.
    destruct (Z.gtb_spec (Z.of_nat (size (otpStore w))) 0) as [ _ | ]; [ | lia ].
    eexists. split.
    - rewrite toFixed1_nonneg; [ reflexivity | ].
      apply rate_nonneg; [ apply count_records_le | exact Hpos ].
    - apply tenths_nearest. }
  intros k1 k2 d1 d2 Hne Hst Hv1 Hl1 Hv2 He2. rewrite Hst.
  assert (H2 : ({[k2 := d2]} : gmap K OtpData) !! k1 = None)
    by now apply lookup_singleton_ne.
  rewrite map_size_insert_None, map_size_singleton by exact H2.
  rewrite <- !insert_empty in *.
  rewrite !count_records_insert, !count_records_empty
    by (exact H2 || apply lookup_empty).
  unfold past_expiry. rewrite Hv1, Hv2.
  destruct (Z.gtb_spec (clock w) (expiresAt d1)); [ lia | ].
  destruct (Z.gtb_spec (clock w) (expiresAt d2)); [ | lia ].
  reflexivity.
Qed.

(** C8.  [checkOTPStatus] leaves the world as it found it.  Without a
    record it reports [exists = false], [expired = true],
    [attempts = 0]; with a record it reports [exists = true], and
    [expired = true] as soon as the expiry is reached, the record
    staying in the store. *)
Theorem checkStatus_reads_only w k :
  snd (checkOTPStatus k w) = w /\
  (otpStore w !! k = None ->
   fst (checkOTPStatus k w) = mkStatusResult false false true 0 0 0) /\
  (forall d,
      otpStore w !! k = Some d ->
      let r := fst (checkOTPStatus k w) in
      st_exists r = true /\
      st_verified r = verified d /\
      st_attempts r = attempts d /\
      (st_expired r = true <-> expiresAt d <= clock w) /\
      (expiresAt d < clock w ->
       st_expired r = true /\ st_timeRemaining r = 0)).
Proof.
  split; [ apply checkOTPStatus_pure | ].
  unfold checkOTPStatus, bind, Map_get, Date_now, ret.
  destruct (otpStore w !! k) as [d | ] eqn:Hk.
  - split; [ discriminate | ]. intros d' [= <-]. cbn.
    unfold Math_max.
    split; [ reflexivity | split; [ apply orb_false_r | split; [ reflexivity | ] ] ].
    split.
    + rewrite Z.eqb_eq. lia.
    + intros Hexp. replace (0 `max` (expiresAt d - clock w)) with 0 by lia.
      split; reflexivity.
  - split; [ reflexivity | discriminate ].
Qed.

(** C9.  On a record that is not past its expiry and has attempts
    left, [verifyOTP] with the stored code succeeds and adds one to
    [attempts], whether or not the record was verified before: the
    result of a call does not depend on the flag.  A new record can
    thus be verified three times in a row; the fourth call is refused
    for lack of attempts. *)
Theorem verify_ignores_verified_flag w k d :
  otpStore w !! k = Some d ->
  clock w <= expiresAt d ->
  attempts d < maxAttempts ->
  let r := fst (verifyOTP k (otp d) w) in
  let w' := snd (verifyOTP k (otp d) w) in
  success r = true /\
  (exists d', otpStore w' !! k = Some d' /\
              attempts d' = attempts d + 1 /\ verified d' = true) /\
  (forall b i,
      fst (verifyOTP k i (with_store (<[k := set_verified b d]> (otpStore w)) w))
      = fst (verifyOTP k i w)) /\
  (attempts d = 0 ->
   let w1 := snd (verifyOTP k (otp d) w) in
   let w2 := snd (verifyOTP k (otp d) w1) in
   let w3 := snd (verifyOTP k (otp d) w2) in
   verified <$> (otpStore w1 !! k) = Some true /\
   success (fst (verifyOTP k (otp d) w1)) = true /\
   success (fst (verifyOTP k (otp d) w2)) = true /\
   (attempts <$> (otpStore w3 !! k)) = Some maxAttempts /\
   fst (verifyOTP k (otp d) w3) =
     mkVerifyResult false "Maximum OTP attempts exceeded" 0).
Proof.
  intros Hk Hlive Hleft. cbv zeta.
  split; [ | split; [ | split ] ].
  - now rewrite (verifyOTP_match w k d Hk Hlive Hleft).
  - rewrite (verifyOTP_match w k d Hk Hlive Hleft). cbn [snd otpStore].
    exists (accepted (clock w) d). rewrite lookup_insert_eq. repeat split.
  - intros b i.
    set (wb := with_store _ w).
    assert (Hb : otpStore wb !! k = Some (set_verified b d)).
    { subst wb. destruct w. cbn. apply lookup_insert_eq. }
    assert (Hcb : clock wb = clock w) by (subst wb; now destruct w).
    destruct (string_dec i (otp d)) as [-> | Hne].
    + change (otp d) with (otp (set_verified b d)) at 1.
      rewrite (verifyOTP_match wb k (set_verified b d) Hb)
        by (rewrite ?Hcb; cbn [expiresAt attempts set_verified]; lia).
      now rewrite (verifyOTP_match w k d Hk Hlive Hleft).
    + rewrite (verifyOTP_mismatch wb k (set_verified b d) i Hb)
        by (rewrite ?Hcb; cbn [expiresAt attempts otp set_verified];
            assumption || lia).
      now rewrite (verifyOTP_mismatch w k d i Hk Hlive Hleft Hne).
  - intros H0. unfold maxAttempts in *.
    rewrite (verifyOTP_match w k d Hk Hlive Hleft). cbn [snd].
    set (w1 := mkWorld _ _ _ _ _ _ _ _).
    set (d1 := accepted (clock w) d) in *.
    assert (Hk1 : otpStore w1 !! k = Some d1) by apply lookup_insert_eq.
    change (otp d) with (otp d1).
    rewrite (verifyOTP_match w1 k d1 Hk1) by (cbn; unfold maxAttempts; lia).
    cbn [fst snd]. set (w2 := mkWorld _ _ _ _ _ _ _ _).
    set (d2 := accepted (clock w1) d1) in *.
    assert (Hk2 : otpStore w2 !! k = Some d2) by apply lookup_insert_eq.
    change (otp d1) with (otp d2).
    rewrite (verifyOTP_match w2 k d2 Hk2) by (cbn; unfold maxAttempts; lia).
    cbn [fst snd]. set (w3 := mkWorld _ _ _ _ _ _ _ _).
    set (d3 := accepted (clock w2) d2) in *.
    assert (Hk3 : otpStore w3 !! k = Some d3) by apply lookup_insert_eq.
    rewrite (verifyOTP_exhausted w3 k d3 (otp d2) Hk3)
      by (cbn; unfold maxAttempts; lia).
    rewrite Hk1, Hk3. cbn. rewrite H0. repeat split.
Qed.

End Claims.

(** * The claims on sample worlds *)

(** C10.  The [verified] and [expired] counts overlap.  A world reached
    from a fresh manager by generating a code, verifying it, and letting
    the record pass its expiry holds one record that is verified and
    expired and that the sweep, run at that time, has kept (it is within
    the grace window); there [getStatistics] reports total 1,
    verified 1, expired 1 and active -1. *)
Theorem statistics_active_negative :
  exists w : @World Z _ _,
    reachable w /\
    (exists k d, otpStore w = {[k := d]} /\ verified d = true /\
                 expiresAt d < clock w <= expiresAt d + 300000) /\
    snd (cleanupExpiredOTPs w) = w /\
    let s := fst (getStatistics w) in
    total s = 1 /\ verifiedCount s = 1 /\ expiredCount s = 1 /\ active s = -1.
Proof.
  exists demo_verified_expired.
  set (d := mkOtpData "5500" "9876543210" 1 0 300000 true (Some 0)).
  assert (Hst : otpStore demo_verified_expired = {[1 := d]}) by reflexivity.
  split; [ | split; [ | split ] ].
  - exists 0, (fun _ => half), (fun _ => true).
    exists [CGenerate 1 "9876543210"; CVerify 1 "5500"; CWait 300001; CSweep].
    reflexivity.
  - exists 1, d. split; [ exact Hst | ]. split; [ reflexivity | ].
    vm_compute. split; [ reflexivity | discriminate ].
  - vm_compute. reflexivity.
  - apply (singleton_verified_expired demo_verified_expired 1 d Hst);
      reflexivity.
Qed.

(** C1 as first stated fails: the first verification after generate,
    with the right code, reports 2 remaining attempts, not 3. *)
Lemma verify_first_attempt_counterexample :
  otpStore demo_generated !! 1 = Some demo_record /\
  fst (verifyOTP 1 (otp demo_record) demo_generated) =
    mkVerifyResult true "OTP verified successfully" 2 /\
  remainingAttempts (fst (verifyOTP 1 (otp demo_record) demo_generated))
    <> maxAttempts.
Proof.
  split; [ reflexivity | ]. split; [ reflexivity | ].
  vm_compute. discriminate.
Qed.

Lemma verify_correct_code_remaining_witness :
  otpStore demo_generated !! 1 = Some demo_record /\
  clock demo_generated <= expiresAt demo_record /\
  attempts demo_record < maxAttempts /\
  success (fst (verifyOTP 1 (otp demo_record) demo_generated)) = true /\
  remainingAttempts (fst (verifyOTP 1 (otp demo_record) demo_generated)) = 2.
Proof.
  assert (H1 : otpStore demo_generated !! 1 = Some demo_record)
    by reflexivity.
  assert (H2 : clock demo_generated <= expiresAt demo_record)
    by (vm_compute; discriminate).
  assert (H3 : attempts demo_record < maxAttempts) by reflexivity.
  destruct (proj1 verify_correct_code_remaining demo_generated 1 demo_record
                  H1 H2 H3) as (Hs & Hr & _).
  split; [ exact H1 | ]. split; [ exact H2 | ]. split; [ exact H3 | ].
  split; [ exact Hs | exact Hr ].
Defined.

Lemma attempts_never_exceed_max_witness :
  otpStore demo_generated !! 1 = Some demo_record /\
  attempts demo_record = 0 /\
  "0000" <> otp demo_record /\ "1111" <> otp demo_record /\
  "2222" <> otp demo_record /\
  success (fst (verifyOTP 1 (otp demo_record)
                  (run [CVerify 1 "0000"; CWait 0; CVerify 1 "1111"; CWait 0;
                        CVerify 1 "2222"; CWait 0] demo_generated))) = false.
Proof.
  assert (H1 : otpStore demo_generated !! 1 = Some demo_record)
    by reflexivity.
  assert (H2 : attempts demo_record = 0) by reflexivity.
  assert (Ha : "0000" <> otp demo_record) by discriminate.
  assert (Hb : "1111" <> otp demo_record) by discriminate.
  assert (Hc : "2222" <> otp demo_record) by discriminate.
  repeat (split; [ assumption | ]).
  exact (proj1 (proj2 (proj2 (proj2 attempts_never_exceed_max))
                  demo_generated 1 demo_record "0000" "1111" "2222" 0 0 0
                  H1 H2 Ha Hb Hc)).
Defined.

Lemma verify_expired_deletes_witness :
  otpStore demo_expired !! 1 = Some demo_record /\
  expiresAt demo_record < clock demo_expired /\
  message (fst (verifyOTP 1 "5500" demo_expired)) = "OTP has expired" /\
  st_exists (fst (checkOTPStatus 1 (snd (verifyOTP 1 "5500" demo_expired))))
    = false.
Proof.
  assert (H1 : otpStore demo_expired !! 1 = Some demo_record) by reflexivity.
  assert (H2 : expiresAt demo_record < clock demo_expired) by reflexivity.
  destruct (verify_expired_deletes demo_expired 1 demo_record "5500" H1 H2)
    as (_ & _ & Hm & _ & _ & _ & _ & Hs).
  split; [ exact H1 | ]. split; [ exact H2 | ]. split; [ exact Hm | exact Hs ].
Defined.

Lemma resend_regenerates_witness :
  otpStore demo_expired !! 1 = Some demo_record /\
  rs_success (fst (resendOTP 1 demo_expired)) = true /\
  otpStore (snd (resendOTP 1 demo_expired)) !! 1 =
    Some (mkOtpData "5500" "9876543210" 0 300001 600001 false None).
Proof.
  assert (H1 : otpStore demo_expired !! 1 = Some demo_record) by reflexivity.
  destruct (proj2 (resend_regenerates demo_expired 1) demo_record H1)
    as (Heq & code & Hc & Hs & _).
  split; [ exact H1 | ]. split; [ now rewrite Heq | ].
  rewrite Hs.
  assert (Hcode : Some code = Some "5500").
  { rewrite <- Hc. vm_compute. reflexivity. }
  injection Hcode as ->. vm_compute. reflexivity.
Defined.

Lemma sweep_exact_idempotent_witness :
  otpStore demo_stale !! 1 = Some demo_record /\
  expiresAt demo_record + 300000 < clock demo_stale /\
  otpStore (snd (cleanupExpiredOTPs demo_stale)) !! 1 = None.
Proof.
  assert (H1 : otpStore demo_stale !! 1 = Some demo_record) by reflexivity.
  assert (H2 : expiresAt demo_record + 300000 < clock demo_stale)
    by reflexivity.
  repeat (split; [ assumption | ]).
  exact (proj1 (proj1 (sweep_exact_idempotent demo_stale) 1 demo_record H1) H2).
Defined.

(** C7 as first stated fails in three places.  With three records,
    one of them verified, [successRate] is the text "33.3", which
    reads as 333/10; that is neither [verified / total * 100 = 100/3]
    nor the Number the program computes for it.  With eighty records,
    twenty-three of them verified, the text is "28.7", although the
    rational 23/80 * 100 is 28.75 and rounds to 28.8: the text follows
    the Number, which lies below 28.75.  And after generating two
    records, verifying one and waiting until the other has expired,
    the verified one has expired too unless it is the younger of the
    two: with both generated at the same time the report is
    expired 2, active -1. *)
Lemma success_rate_counterexample :
  (let s := fst (getStatistics demo_three) in
   total s = 3 /\ verifiedCount s = 1 /\
   successRate s = VString "33.3" /\
   Number_of (successRate s) = Some (333 # 10)%Q /\
   ~ (333 # 10 == inject_Z (verifiedCount s) / inject_Z (total s) * 100)%Q /\
   ~ (333 # 10 == Number_mul (Number_div (inject_Z (verifiedCount s))
                                         (inject_Z (total s))) 100)%Q) /\
  (let s := fst (getStatistics demo_eighty) in
   total s = 80 /\ verifiedCount s = 23 /\
   successRate s = VString "28.7" /\
   (inject_Z (verifiedCount s) / inject_Z (total s) * 100 == 2875 # 100)%Q /\
   toFixed1 (inject_Z (verifiedCount s) / inject_Z (total s) * 100)%Q
   = "28.8") /\
  (let w := demo_both_expired in
   let d1 := mkOtpData "5500" "9876543210" 1 0 300000 true (Some 0) in
   let d2 := mkOtpData "5500" "9876543211" 0 0 300000 false None in
   otpStore w = <[1 := d1]> {[2 := d2]} /\
   verified d1 = true /\ verified d2 = false /\
   expiresAt d2 < clock w /\
   fst (getStatistics w) = mkStatistics 2 1 2 (-1) (VString "50.0")).
Proof.
  split; [ | split ].
  - vm_compute. repeat split; discriminate.
  - vm_compute. repeat split.
  - vm_compute. repeat split.
Qed.

Lemma statistics_aggregate_witness :
  let d1 := mkOtpData "5500" "9876543211" 1 200000 500000 true (Some 200000) in
  (2 : Z) <> 1 /\
  otpStore demo_two = <[2 := d1]> {[1 := demo_record]} /\
  verified d1 = true /\ clock demo_two <= expiresAt d1 /\
  verified demo_record = false /\ expiresAt demo_record < clock demo_two /\
  fst (getStatistics demo_two) = mkStatistics 2 1 1 0 (VString "50.0").
Proof.
  cbv zeta.
  set (d1 := mkOtpData "5500" "9876543211" 1 200000 500000 true (Some 200000)).
  assert (Hne : (2 : Z) <> 1) by discriminate.
  assert (Hst : otpStore demo_two = <[2 := d1]> {[1 := demo_record]})
    by reflexivity.
  assert (Hv1 : verified d1 = true) by reflexivity.
  assert (Hl1 : clock demo_two <= expiresAt d1) by (vm_compute; discriminate).
  assert (Hv2 : verified demo_record = false) by reflexivity.
  assert (He2 : expiresAt demo_record < clock demo_two) by reflexivity.
  repeat (split; [ assumption | ]).
  exact (proj2 (proj2 (proj2 (proj2 (proj2 (proj2 (proj2
           (statistics_aggregate demo_two)))))))
           2 1 d1 demo_record Hne Hst Hv1 Hl1 Hv2 He2).
Defined.

Lemma checkStatus_reads_only_witness :
  otpStore demo_expired !! 1 = Some demo_record /\
  expiresAt demo_record < clock demo_expired /\
  snd (checkOTPStatus 1 demo_expired) = demo_expired /\
  st_exists (fst (checkOTPStatus 1 demo_expired)) = true /\
  st_expired (fst (checkOTPStatus 1 demo_expired)) = true.
Proof.
  assert (H1 : otpStore demo_expired !! 1 = Some demo_record) by reflexivity.
  assert (H2 : expiresAt demo_record < clock demo_expired) by reflexivity.
  destruct (checkStatus_reads_only demo_expired 1) as (Hp & _ & Hs).
  destruct (Hs demo_record H1) as (Hx & _ & _ & _ & He).
  split; [ exact H1 | ]. split; [ exact H2 | ]. split; [ exact Hp | ].
  split; [ exact Hx | exact (proj1 (He H2)) ].
Defined.

Lemma verify_ignores_verified_flag_witness :
  let w := snd (verifyOTP 1 "5500" demo_generated) in
  let d := mkOtpData "5500" "9876543210" 1 0 300000 true (Some 0) in
  otpStore w !! 1 = Some d /\
  clock w <= expiresAt d /\
  attempts d < maxAttempts /\
  verified d = true /\
  success (fst (verifyOTP 1 (otp d) w)) = true /\
  attempts <$> (otpStore (snd (verifyOTP 1 (otp d) w)) !! 1) = Some 2.
Proof.
  cbv zeta.
  set (w := snd (verifyOTP 1 "5500" demo_generated)).
  set (d := mkOtpData "5500" "9876543210" 1 0 300000 true (Some 0)).
  assert (H1 : otpStore w !! 1 = Some d) by reflexivity.
  assert (H2 : clock w <= expiresAt d) by (vm_compute; discriminate).
  assert (H3 : attempts d < maxAttempts) by reflexivity.
  destruct (verify_ignores_verified_flag w 1 d H1 H2 H3)
    as (Hs & (d' & Hd' & Ha & _) & _).
  split; [ exact H1 | ]. split; [ exact H2 | ]. split; [ exact H3 | ].
  split; [ reflexivity | ]. split; [ exact Hs | ].
  rewrite Hd'. cbn. now rewrite Ha.
Defined.

(** * More of the code *)

(** ** Strings *)

Section StringFacts.

Lemma string_app_nil (t : string) : "" ++ t = t.
Proof. reflexivity. Qed.

Lemma string_app_cons (c : ascii) (s t : string) :
  String c s ++ t = String c (s ++ t).
Proof. reflexivity. Qed.

Ltac app_step := rewrite ?string_app_nil, ?string_app_cons.

Lemma string_length_app (s t : string) :
  String.length (s ++ t) = (String.length s + String.length t)%nat.
Proof.
  induction s as [ | c s IH ]; app_step; cbn [String.length];
    [ reflexivity | now rewrite IH ].
Qed.

Lemma string_app_assoc (s t u : string) : (s ++ t) ++ u = s ++ (t ++ u).
Proof.
  induction s as [ | c s IH ]; app_step; [ reflexivity | now rewrite IH ].
Qed.

Lemma string_app_empty_r (s : string) : s ++ "" = s.
Proof.
  induction s as [ | c s IH ]; app_step; [ reflexivity | now rewrite IH ].
Qed.

Lemma string_app_inj_tail (s1 s2 t1 t2 : string) :
  String.length t1 = String.length t2 ->
  s1 ++ t1 = s2 ++ t2 -> s1 = s2 /\ t1 = t2.
Proof.
  revert s2. induction s1 as [ | c s1 IH ]; intros s2 Hlen Heq.
  - destruct s2 as [ | c2 s2 ]; [ now split | ].
    exfalso. apply (f_equal String.length) in Heq.
    rewrite !string_length_app in Heq. cbn [String.length] in Heq. lia.
  - destruct s2 as [ | c2 s2 ].
    + exfalso. apply (f_equal String.length) in Heq.
      rewrite !string_length_app in Heq. cbn [String.length] in Heq. lia.
    + rewrite !string_app_cons in Heq. injection Heq as -> Heq.
      destruct (IH s2 Hlen Heq) as [-> ->]. now split.
Qed.

Lemma numeric_app (s t : string) :
  numeric (s ++ t) = numeric s && numeric t.
Proof.
  induction s as [ | c s IH ]; app_step; cbn [numeric]; [ reflexivity | ].
  rewrite IH. now rewrite andb_assoc.
Qed.

Lemma strip_non_digits_app (s t : string) :
  strip_non_digits (s ++ t) = strip_non_digits s ++ strip_non_digits t.
Proof.
  induction s as [ | c s IH ]; app_step; cbn [strip_non_digits];
    [ reflexivity | ].
  destruct (is_digit c); app_step; now rewrite IH.
Qed.

Lemma strip_non_digits_numeric (s : string) :
  numeric (strip_non_digits s) = true.
Proof.
  induction s as [ | c s IH ]; cbn; [ reflexivity | ].
  destruct (is_digit c) eqn:Hc; cbn; [ now rewrite Hc | exact IH ].
Qed.

Lemma strip_non_digits_fixed (s : string) :
  numeric s = true -> strip_non_digits s = s.
Proof.
  induction s as [ | c s IH ]; cbn; [ reflexivity | ].
  intros Hn. apply andb_prop in Hn as [Hc Hs].
  rewrite Hc. now rewrite IH.
Qed.

Lemma length_join (xs : list string) :
  String.length (join xs) = list_sum (map String.length xs).
Proof.
  unfold join. induction xs as [ | x xs IH ]; [ reflexivity | ].
  destruct xs as [ | y ys ].
  - cbn. lia.
  - change (String.concat "" (x :: y :: ys))
      with (x ++ "" ++ String.concat "" (y :: ys)).
    rewrite string_length_app, string_app_nil, IH. reflexivity.
Qed.

Lemma numeric_join (xs : list string) :
  Forall (fun s => numeric s = true) xs -> numeric (join xs) = true.
Proof.
  unfold join. induction 1 as [ | x xs Hx Hxs IH ]; [ reflexivity | ].
  destruct xs as [ | y ys ]; [ exact Hx | ].
  change (String.concat "" (x :: y :: ys))
    with (x ++ "" ++ String.concat "" (y :: ys)).
  rewrite string_app_nil, numeric_app, Hx, IH. reflexivity.
Qed.

End StringFacts.

(** ** The manager: storage, frames and the life of a record *)

Section MoreManager.
Context {K : Type} `{Countable K}.
Implicit Types (w : @World K _ _) (k : K) (d : OtpData).
Implicit Types (m : gmap K OtpData).

Ltac verify_cases w k i d Hk :=
  destruct (otpStore w !! k) as [d | ] eqn:Hk;
  [ destruct (Z_lt_le_dec (expiresAt d) (clock w));
    [ rewrite (verifyOTP_expired w k d i) by assumption
    | destruct (Z_le_gt_dec maxAttempts (attempts d));
      [ rewrite (verifyOTP_exhausted w k d i) by assumption
      | destruct (string_dec i (otp d)) as [-> | ];
        [ rewrite (verifyOTP_match w k d) by (assumption || lia)
        | rewrite (verifyOTP_mismatch w k d i) by (assumption || lia) ] ] ]
  | rewrite (verifyOTP_missing w k i) by assumption ].

Ltac verify_cases_at w k i d Hk :=
  destruct (Z_lt_le_dec (expiresAt d) (clock w));
  [ rewrite (verifyOTP_expired w k d i Hk) by assumption
  | destruct (Z_le_gt_dec maxAttempts (attempts d));
    [ rewrite (verifyOTP_exhausted w k d i Hk) by assumption
    | destruct (string_dec i (otp d)) as [-> | ];
      [ rewrite (verifyOTP_match w k d Hk) by (assumption || lia)
      | rewrite (verifyOTP_mismatch w k d i Hk) by (assumption || lia) ] ] ].

Lemma resendOTP_eq w k :
  resendOTP k w =
  match otpStore w !! k with
  | Some d =>
      (mkResendResult true "New OTP sent successfully"
                      (Some (fst (generateOTP k (phone d) w))),
       snd (generateOTP k (phone d) w))
  | None =>
      (mkResendResult false "Cannot resend OTP. Please generate a new one."
                      None, w)
  end.
Proof.
  unfold resendOTP, bind, Map_get.
  destruct (otpStore w !! k) as [d | ]; [ | reflexivity ].
  now rewrite generateOTP_eq.
Qed.

Lemma swept_count_none now m :
  (swept_count now m >? 0) = false -> sweep_store now m = m.
Proof.
  intros Hc. apply sweep_store_fixed. intros k d Hk.
  destruct (past_grace now d) eqn:Hp; [ exfalso | reflexivity ].
  unfold swept_count in Hc.
  assert (Hin : In (k, d) (List.filter
            (fun e : K * OtpData => past_grace now (snd e)) (map_to_list m))).
  { apply filter_In. split; [ | exact Hp ].
    apply list_elem_of_In, elem_of_map_to_list. exact Hk. }
  destruct (List.filter _ _) as [ | e l ]; [ exact Hin | ].
  cbn [length] in Hc. rewrite Z.gtb_ltb in Hc. apply Z.ltb_ge in Hc. lia.
Qed.

Lemma exec_accepts (c : Call) w : accepts (exec c w) = accepts w.
Proof.
  destruct c as [k p | k i | k | k | | | dt]; cbn [exec].
  - now rewrite generateOTP_eq.
  - verify_cases w k i d Hk; reflexivity.
  - rewrite resendOTP_eq. destruct (otpStore w !! k); [ | reflexivity ].
    now rewrite generateOTP_eq.
  - now rewrite checkOTPStatus_pure.
  - now rewrite cleanupExpiredOTPs_eq.
  - now rewrite getStatistics_eq.
  - reflexivity.
Qed.

Lemma image_accepted m w : always_accepts w -> image m w = Some m.
Proof. intros Ha. unfold image. now rewrite Ha. Qed.

Lemma exec_in_sync (c : Call) w :
  always_accepts w -> in_sync w -> in_sync (exec c w).
Proof.
  intros Ha Hs. destruct c as [k p | k i | k | k | | | dt]; cbn [exec].
  - rewrite generateOTP_eq. left. cbn [snd localStorage otpStore].
    now apply image_accepted.
  - verify_cases w k i d Hk; cbn [snd]; try exact Hs;
      left; cbn [localStorage otpStore]; now apply image_accepted.
  - rewrite resendOTP_eq. destruct (otpStore w !! k); [ | exact Hs ].
    rewrite generateOTP_eq. left. cbn [snd localStorage otpStore].
    now apply image_accepted.
  - now rewrite checkOTPStatus_pure.
  - rewrite cleanupExpiredOTPs_eq. cbn [snd]. unfold in_sync.
    cbn [localStorage otpStore].
    destruct (swept_count _ _ >? 0) eqn:Hc;
      [ left; now apply image_accepted | ].
    rewrite (swept_count_none _ _ Hc). exact Hs.
  - now rewrite getStatistics_eq.
  - exact Hs.
Qed.

Lemma run_in_sync (cs : list Call) : forall w,
  always_accepts w -> in_sync w -> in_sync (run cs w).
Proof.
  induction cs as [ | c cs IH ]; intros w Ha Hs; [ exact Hs | ].
  cbn [run fold_left]. apply IH.
  - intros n. rewrite exec_accepts. apply Ha.
  - now apply exec_in_sync.
Qed.

Lemma generateOTP_frame w k k' p :
  k' <> k -> otpStore (snd (generateOTP k p w)) !! k' = otpStore w !! k'.
Proof.
  intros Hne. rewrite generateOTP_eq. cbn [snd otpStore].
  now rewrite lookup_insert_ne by congruence.
Qed.

Lemma verifyOTP_frame w k k' i :
  k' <> k -> otpStore (snd (verifyOTP k i w)) !! k' = otpStore w !! k'.
Proof.
  intros Hne. verify_cases w k i d Hk; cbn [snd otpStore]; try reflexivity.
  - now rewrite lookup_delete_ne by congruence.
  - now rewrite lookup_insert_ne by congruence.
  - now rewrite lookup_insert_ne by congruence.
Qed.

Lemma resendOTP_frame w k k' :
  k' <> k -> otpStore (snd (resendOTP k w)) !! k' = otpStore w !! k'.
Proof.
  intros Hne. rewrite resendOTP_eq.
  destruct (otpStore w !! k); [ now apply generateOTP_frame | reflexivity ].
Qed.

(** X3.  [generateOTP], [verifyOTP] and [resendOTP] on order [k] leave
    the record of every other order as it was. *)
Theorem calls_touch_only_their_order w k k' :
  k' <> k ->
  (forall p, otpStore (snd (generateOTP k p w)) !! k' = otpStore w !! k') /\
  (forall i, otpStore (snd (verifyOTP k i w)) !! k' = otpStore w !! k') /\
  otpStore (snd (resendOTP k w)) !! k' = otpStore w !! k'.
Proof.
  intros Hne. split; [ | split ].
  - intros p. now apply generateOTP_frame.
  - intros i. now apply verifyOTP_frame.
  - now apply resendOTP_frame.
Qed.

Lemma later_state_refl d : later_state d d.
Proof. unfold later_state. repeat split; auto; lia. Qed.

Lemma later_state_trans d1 d2 d3 :
  later_state d1 d2 -> later_state d2 d3 -> later_state d1 d3.
Proof.
  unfold later_state. intros (A1 & A2 & A3 & A4 & A5 & A6)
                            (B1 & B2 & B3 & B4 & B5 & B6).
  repeat split; try congruence; try lia. auto.
Qed.

Lemma exec_later_state (c : Call) w k d d' :
  ~ regenerates c k ->
  otpStore w !! k = Some d ->
  otpStore (exec c w) !! k = Some d' ->
  later_state d d'.
Proof.
  intros Hr Hk.
  destruct c as [k0 p | k0 i | k0 | k0 | | | dt]; cbn [exec regenerates] in *.
  - rewrite generateOTP_eq. cbn [snd otpStore].
    rewrite lookup_insert_ne by exact Hr. rewrite Hk.
    intros [= <-]. apply later_state_refl.
  - destruct (decide (k0 = k)) as [-> | Hne].
    + verify_cases_at w k i d Hk; cbn [snd otpStore].
      * rewrite lookup_delete_eq. discriminate.
      * rewrite Hk. intros [= <-]. apply later_state_refl.
      * rewrite lookup_insert_eq. intros [= <-].
        unfold later_state, accepted. cbn. repeat split; auto; lia.
      * rewrite lookup_insert_eq. intros [= <-].
        unfold later_state, rejected. cbn. repeat split; auto; lia.
    + rewrite verifyOTP_frame by congruence.
      rewrite Hk. intros [= <-]. apply later_state_refl.
  - rewrite resendOTP_frame by congruence.
    rewrite Hk. intros [= <-]. apply later_state_refl.
  - rewrite checkOTPStatus_pure, Hk. intros [= <-]. apply later_state_refl.
  - rewrite cleanupExpiredOTPs_eq. cbn [snd otpStore].
    rewrite sweep_store_lookup, Hk.
    destruct (past_grace _ _); [ discriminate | ].
    intros [= <-]. apply later_state_refl.
  - rewrite getStatistics_eq. cbn [snd]. rewrite Hk.
    intros [= <-]. apply later_state_refl.
  - cbn. rewrite Hk. intros [= <-]. apply later_state_refl.
Qed.

Lemma exec_stays_absent (c : Call) w k :
  (forall p, c <> CGenerate k p) ->
  otpStore w !! k = None ->
  otpStore (exec c w) !! k = None.
Proof.
  intros Hg Hk.
  destruct c as [k0 p | k0 i | k0 | k0 | | | dt]; cbn [exec].
  - rewrite generateOTP_eq. cbn [snd otpStore].
    rewrite lookup_insert_ne; [ exact Hk | ].
    intros ->. now apply (Hg p).
  - destruct (decide (k0 = k)) as [-> | Hne].
    + now rewrite (verifyOTP_missing w k i Hk).
    + now rewrite verifyOTP_frame by congruence.
  - destruct (decide (k0 = k)) as [-> | Hne].
    + now rewrite resendOTP_eq, Hk.
    + now rewrite resendOTP_frame by congruence.
  - now rewrite checkOTPStatus_pure.
  - rewrite cleanupExpiredOTPs_eq. cbn [snd otpStore].
    now rewrite sweep_store_lookup, Hk.
  - now rewrite getStatistics_eq.
  - exact Hk.
Qed.

Lemma run_stays_absent (cs : list Call) k : forall w,
  Forall (fun c => forall p, c <> CGenerate k p) cs ->
  otpStore w !! k = None ->
  otpStore (run cs w) !! k = None.
Proof.
  induction cs as [ | c cs IH ]; intros w Hcs Hk; [ exact Hk | ].
  inversion Hcs as [ | c' cs' Hc Hcs' ]; subst.
  cbn [run fold_left]. apply IH; [ exact Hcs' | ].
  now apply exec_stays_absent.
Qed.

(** X5.  Only [generateOTP] creates a record: an order without a record
    has none after any sequence of calls that contains no [generateOTP]
    for it (verify, resend, status, sweep and statistics included). *)
Theorem only_generate_creates_records (cs : list Call) w k :
  Forall (fun c => forall p, c <> CGenerate k p) cs ->
  otpStore w !! k = None ->
  otpStore (run cs w) !! k = None.
Proof. apply run_stays_absent. Qed.

(** X4.  Along any sequence of calls that does not regenerate the code
    of order [k], a record that is still there keeps its code, phone,
    creation and expiry times; its attempts never go down and, once
    verified, it stays verified. *)
Theorem record_only_moves_forward (cs : list Call) : forall w k d d',
  Forall (fun c => ~ regenerates c k) cs ->
  otpStore w !! k = Some d ->
  otpStore (run cs w) !! k = Some d' ->
  later_state d d'.
Proof.
  induction cs as [ | c cs IH ]; intros w k d d' Hcs Hk Hk'.
  - cbn in Hk'. rewrite Hk in Hk'. injection Hk' as <-.
    apply later_state_refl.
  - inversion Hcs as [ | c' cs' Hc Hcs' ]; subst.
    cbn [run fold_left] in Hk'.
    destruct (otpStore (exec c w) !! k) as [d1 | ] eqn:Hk1.
    + apply later_state_trans with d1.
      * exact (exec_later_state c w k d d1 Hc Hk Hk1).
      * exact (IH (exec c w) k d1 d' Hcs' Hk1 Hk').
    + exfalso.
      assert (Hnone : otpStore (run cs (exec c w)) !! k = None).
      { apply run_stays_absent; [ | exact Hk1 ].
        eapply Forall_impl; [ exact Hcs' | ].
        intros c0 Hc0 p ->. apply Hc0. reflexivity. }
      unfold run in Hnone. congruence.
Qed.

Lemma Qceiling_div_1000 (t : Z) :
  Math_ceil (inject_Z t / 1000)%Q = - ((- t) / 1000).
Proof.
  unfold Math_ceil, Qceiling, Qfloor. cbn.
  rewrite Z.mul_1_r. reflexivity.
Qed.

(** X6.  For an existing record [checkOTPStatus] reports [expired]
    exactly when it reports no time remaining, which is exactly when the
    expiry is reached; while time remains, the reported seconds are the
    remaining milliseconds rounded up; [remainingAttempts] is never
    negative and is [maxAttempts - attempts] while attempts are within
    the maximum. *)
Theorem status_fields_agree w k d :
  otpStore w !! k = Some d ->
  let r := fst (checkOTPStatus k w) in
  (st_expired r = true <-> st_timeRemaining r = 0) /\
  (st_timeRemaining r = 0 <-> expiresAt d <= clock w) /\
  (clock w < expiresAt d ->
   1000 * (st_timeRemaining r - 1) < expiresAt d - clock w
     <= 1000 * st_timeRemaining r) /\
  0 <= st_remainingAttempts r /\
  (attempts d <= maxAttempts ->
   st_remainingAttempts r = maxAttempts - attempts d).
Proof.
  intros Hk. cbv zeta.
  unfold checkOTPStatus, bind, Map_get, Date_now, ret. rewrite Hk.
  cbn [fst st_expired st_timeRemaining st_remainingAttempts].
  rewrite Qceiling_div_1000. unfold Math_max.
  set (t := Z.max 0 (expiresAt d - clock w)).
  assert (Ht : 0 <= t) by (subst t; lia).
  pose proof (Z.div_mod (- t) 1000 ltac:(lia)) as Hdm.
  pose proof (Z.mod_pos_bound (- t) 1000 ltac:(lia)) as Hmb.
  split; [ | split; [ | split; [ | split ] ] ].
  - rewrite Z.eqb_eq. lia.
  - subst t. lia.
  - intros Hlive. subst t. lia.
  - lia.
  - lia.
Qed.

(** X7.  At the very millisecond of its expiry a record is reported as
    expired by [checkOTPStatus], yet [verifyOTP] still accepts its code:
    the status test is [expiresAt - now = 0], the verification test is
    [now > expiresAt]. *)
Theorem expiry_instant_disagreement w k d :
  otpStore w !! k = Some d ->
  clock w = expiresAt d ->
  attempts d < maxAttempts ->
  st_expired (fst (checkOTPStatus k w)) = true /\
  st_timeRemaining (fst (checkOTPStatus k w)) = 0 /\
  success (fst (verifyOTP k (otp d) w)) = true.
Proof.
  intros Hk Hc Ha.
  rewrite (verifyOTP_match w k d Hk) by lia.
  unfold checkOTPStatus, bind, Map_get, Date_now, ret. rewrite Hk.
  cbn [fst st_expired st_timeRemaining success]. unfold Math_max.
  replace (Z.max 0 (expiresAt d - clock w)) with 0 by lia.
  repeat split.
Qed.

(** X8.  Whatever the outcome, the [remainingAttempts] that [verifyOTP]
    returns is the one [checkOTPStatus] reports right afterwards. *)
Theorem status_after_verify_agrees w k i :
  st_remainingAttempts (fst (checkOTPStatus k (snd (verifyOTP k i w)))) =
  remainingAttempts (fst (verifyOTP k i w)).
Proof.
  unfold checkOTPStatus, bind, Map_get, Date_now, ret, Math_max.
  verify_cases w k i d Hk; cbn [fst snd otpStore remainingAttempts].
  - now rewrite lookup_delete_eq.
  - rewrite Hk. cbn. lia.
  - rewrite lookup_insert_eq. cbn. lia.
  - rewrite lookup_insert_eq. cbn. lia.
  - now rewrite Hk.
Qed.

Lemma count_records_partition (v e : OtpData -> bool) m :
  Z.of_nat (size m) =
    count_records (fun d => v d && e d) m
    + count_records (fun d => v d && negb (e d)) m
    + count_records (fun d => negb (v d) && e d) m
    + count_records (fun d => negb (v d) && negb (e d)) m /\
  count_records v m =
    count_records (fun d => v d && e d) m
    + count_records (fun d => v d && negb (e d)) m /\
  count_records e m =
    count_records (fun d => v d && e d) m
    + count_records (fun d => negb (v d) && e d) m.
Proof.
  induction m as [ | k d m Hk IH ] using map_ind.
  - rewrite map_size_empty, !count_records_empty. repeat split.
  - rewrite map_size_insert_None by exact Hk.
    rewrite !count_records_insert by exact Hk.
    destruct IH as (I1 & I2 & I3).
    destruct (v d), (e d); cbn [andb negb]; lia.
Qed.

(** X9.  In [getStatistics], [active] is the number of records that are
    neither verified nor expired minus the number that are both; the
    verified and expired counts lie between 0 and [total], [active]
    between [-total] and [total], and [active] is not negative when no
    record is both verified and expired. *)
Theorem statistics_active_identity w :
  let s := fst (getStatistics w) in
  let both := count_records (fun d => verified d && past_expiry (clock w) d)
                            (otpStore w) in
  let neither :=
    count_records (fun d => negb (verified d) && negb (past_expiry (clock w) d))
                  (otpStore w) in
  active s = neither - both /\
  0 <= verifiedCount s <= total s /\
  0 <= expiredCount s <= total s /\
  - total s <= active s <= total s /\
  (both = 0 -> 0 <= active s).
Proof.
  cbv zeta. rewrite getStatistics_eq.
  cbn [fst total verifiedCount expiredCount active].
  destruct (count_records_partition verified (past_expiry (clock w))
                                    (otpStore w)) as (P1 & P2 & P3).
  pose proof (count_records_le (fun d => verified d && past_expiry (clock w) d)
                               (otpStore w)) as B1.
  pose proof (count_records_le
                (fun d => verified d && negb (past_expiry (clock w) d))
                (otpStore w)) as B2.
  pose proof (count_records_le
                (fun d => negb (verified d) && past_expiry (clock w) d)
                (otpStore w)) as B3.
  pose proof (count_records_le
                (fun d => negb (verified d) && negb (past_expiry (clock w) d))
                (otpStore w)) as B4.
  repeat split; lia.
Qed.

(** X10.  Only [generateOTP] and a [resendOTP] that finds a record hand
    a message to [sendOTPSMS]; each does so once, to the phone given (or
    stored), and the code sent is the code returned and the code kept in
    the record. *)
Theorem sms_only_when_generating :
  (forall (c : Call) w, ~ sends c -> outbox (exec c w) = outbox w) /\
  (forall w k p,
      let code := fst (generateOTP k p w) in
      let w' := snd (generateOTP k p w) in
      outbox w' = (p, code, k) :: outbox w /\
      otp <$> (otpStore w' !! k) = Some code) /\
  (forall w k d,
      otpStore w !! k = Some d ->
      exists code,
        rs_otp (fst (resendOTP k w)) = Some code /\
        outbox (snd (resendOTP k w)) = (phone d, code, k) :: outbox w /\
        otp <$> (otpStore (snd (resendOTP k w)) !! k) = Some code) /\
  (forall w k,
      otpStore w !! k = None -> outbox (snd (resendOTP k w)) = outbox w).
Proof.
  split; [ | split; [ | split ] ].
  - intros c w Hs.
    destruct c as [k p | k i | k | k | | | dt]; cbn [exec sends] in *;
      try (exfalso; exact (Hs I)).
    + destruct (otpStore w !! k) as [d | ] eqn:Hk.
      * destruct (Z_lt_le_dec (expiresAt d) (clock w)).
        { now rewrite (verifyOTP_expired w k d i Hk) by assumption. }
        destruct (Z_le_gt_dec maxAttempts (attempts d)).
        { now rewrite (verifyOTP_exhausted w k d i Hk) by assumption. }
        destruct (string_dec i (otp d)) as [-> | ].
        { now rewrite (verifyOTP_match w k d Hk) by (assumption || lia). }
        now rewrite (verifyOTP_mismatch w k d i Hk) by (assumption || lia).
      * now rewrite (verifyOTP_missing w k i Hk).
    + now rewrite checkOTPStatus_pure.
    + now rewrite cleanupExpiredOTPs_eq.
    + now rewrite getStatistics_eq.
    + reflexivity.
  - intros w k p. cbv zeta. rewrite generateOTP_eq. cbn [fst snd outbox otpStore].
    split; [ reflexivity | ]. now rewrite lookup_insert_eq.
  - intros w k d Hk. rewrite resendOTP_eq, Hk, generateOTP_eq.
    exists (next_code w). cbn [fst snd rs_otp outbox otpStore].
    rewrite lookup_insert_eq. repeat split.
  - intros w k Hk. now rewrite resendOTP_eq, Hk.
Qed.

(** X11.  Every code that [generateOTP] returns passes
    [OTPUtils.validateOTPFormat]. *)
Theorem generated_code_passes_format_check w k p :
  OTPUtils.validateOTPFormat (fst (generateOTP k p w)) = true.
Proof.
  rewrite generateOTP_eq. cbn [fst]. unfold OTPUtils.validateOTPFormat, next_code.
  destruct (Number_toString_four_digits _ (draw_range (entropy w (draws w))))
    as [Hlen Hnum].
  rewrite Hlen, Hnum. reflexivity.
Qed.

Lemma sum_lengths_le (l : list string) :
  Forall (fun s => (String.length s <= 1)%nat) l ->
  (list_sum (map String.length l) <= length l)%nat.
Proof.
  induction 1 as [ | s l Hs Hl IH ];
    unfold list_sum in *; cbn [map fold_right length] in *; lia.
Qed.

Lemma sum_lengths_lt (l : list string) :
  Forall (fun s => (String.length s <= 1)%nat) l ->
  Exists (fun s => s = "") l ->
  (list_sum (map String.length l) < length l)%nat.
Proof.
  induction 1 as [ | s l Hs Hl IH ]; intros Hex.
  - inversion Hex.
  - pose proof (sum_lengths_le l Hl) as Hle.
    unfold list_sum in *. cbn [map fold_right length] in *.
    inversion Hex as [ ? ? Hs0 | ? ? Hl0 ]; subst.
    + cbn [String.length]. lia.
    + specialize (IH Hl0). lia.
Qed.

Lemma sum_lengths_eq (l : list string) :
  Forall (fun s => String.length s = 1%nat) l ->
  list_sum (map String.length l) = length l.
Proof.
  induction 1 as [ | s l Hs Hl IH ];
    unfold list_sum in *; cbn [map fold_right length] in *; lia.
Qed.

(** X12.  In [handleOTPFormSubmit], with at most one character per digit
    box: if a box is empty nothing is verified and the manager is left
    untouched (no attempt is consumed); if every box holds a character
    the handler is [verifyOTP] on the characters joined in order. *)
Theorem incomplete_entry_costs_no_attempt w k (inputs : list string) :
  Forall (fun s => (String.length s <= 1)%nat) inputs ->
  (Exists (fun s => s = "") inputs ->
   handleOTPFormSubmit k inputs w = (Incomplete, w)) /\
  (Forall (fun s => String.length s = 1%nat) inputs ->
   handleOTPFormSubmit k inputs w =
   (Submitted (fst (verifyOTP k (join inputs) w)),
    snd (verifyOTP k (join inputs) w))).
Proof.
  intros Hmax. unfold handleOTPFormSubmit. rewrite length_join.
  split.
  - intros Hex. pose proof (sum_lengths_lt inputs Hmax Hex) as Hlt.
    destruct (Nat.eqb_spec (list_sum (map String.length inputs)) (length inputs));
      [ lia | reflexivity ].
  - intros Hall. rewrite (sum_lengths_eq inputs Hall), Nat.eqb_refl.
    cbn [negb]. unfold bind, ret.
    destruct (verifyOTP k (join inputs) w). reflexivity.
Qed.

End MoreManager.

(** X1.  With order ids that are strings and a storage that accepts
    every write, every call leaves the image in [localStorage] equal
    to the store when it was so before; hence, from a fresh manager,
    after any sequence of calls the stored image is the current store:
    each branch that changes the [Map] also calls [saveToStorage]. *)
Theorem storage_follows_store :
  (forall (c : @Call string) (w : @World string _ _),
      always_accepts w -> in_sync w -> in_sync (exec c w)) /\
  (forall t0 rnd ok (cs : list (@Call string)),
      (forall n, ok n = true) -> in_sync (run cs (fresh t0 rnd ok))).
Proof.
  split; [ exact exec_in_sync | ].
  intros t0 rnd ok cs Hok. apply run_in_sync; [ exact Hok | now right ].
Qed.

(** When the storage refuses the write, the store moves on and the
    image stays behind. *)
Example refused_write_leaves_image_behind :
  localStorage demo_refused = None /\
  otpStore demo_refused !! "17"
  = Some (mkOtpData "5500" "9876543210" 0 0 300000 false None).
Proof. split; reflexivity. Qed.

Lemma load_loop (l : list (string * OtpData)) : forall (w : @World string _ _),
  for_of (fun (_ : unit) (e : string * OtpData) => Map_set (fst e) (snd e))
         tt l w =
  (tt, with_store (fold_left (fun acc e => <[fst e := snd e]> acc) l
                             (otpStore w)) w).
Proof.
  induction l as [ | e l IH ]; intros w.
  - destruct w; reflexivity.
  - cbn [for_of fold_left]. unfold bind at 1. unfold Map_set at 1.
    rewrite IH. destruct w; reflexivity.
Qed.

Lemma fold_insert_list_to_map (l : list (string * OtpData)) :
  NoDup (l.*1) ->
  forall acc : gmap string OtpData,
    fold_left (fun acc e => <[fst e := snd e]> acc) l acc = list_to_map l ∪ acc.
Proof.
  induction l as [ | [i x] l IH ]; intros Hnd acc.
  - cbn. now rewrite (left_id_L ∅ (∪)).
  - cbn [fold_left fst snd]. rewrite fmap_cons in Hnd.
    apply NoDup_cons in Hnd as [Hi Hnd].
    rewrite (IH Hnd). cbn [list_to_map foldr fst snd uncurry].
    change (foldr (fun '(k, v) => <[k := v]>) ∅ l)
      with (list_to_map l : gmap string OtpData).
    rewrite <- insert_union_l. symmetry. apply insert_union_r.
    now apply not_elem_of_list_to_map_1.
Qed.

(** X2.  With string order ids, constructing a new manager from a world
    whose stored image is in step with its store (a page reload)
    rebuilds exactly that store: [loadFromStorage] undoes
    [saveToStorage]. *)
Theorem reload_restores_store (w : @World string _ _) :
  in_sync w -> construct w = w.
Proof.
  intros [Hs | [Hn He]]; unfold construct, loadFromStorage;
    cbn [localStorage].
  - rewrite Hs, load_loop. cbn [snd with_store otpStore].
    rewrite fold_insert_list_to_map by apply NoDup_fst_map_to_list.
    rewrite list_to_map_to_list, (right_id_L ∅ (∪)).
    destruct w as [m ls ob ck en dr]. unfold with_store. cbn in *.
    congruence.
  - rewrite Hn. cbn [snd]. destruct w; cbn in *. congruence.
Qed.

(** ** [OTPUtils] *)

Section Utilities.

Lemma Number_toString_inj (a b : Z) :
  Number_toString a = Number_toString b -> a = b.
Proof.
  unfold Number_toString. intros Heq.
  assert (Hnn : forall z, Z.to_int z <> Decimal.Pos Decimal.Nil /\
                          Z.to_int z <> Decimal.Neg Decimal.Nil).
  { intros [ | p | p ]; cbn; split; try discriminate;
      intros [= Hp]; now apply (DecimalPos.Unsigned.to_uint_nonnil p). }
  apply (f_equal NilZero.int_of_string) in Heq.
  rewrite !NilZero.isi in Heq by apply Hnn.
  injection Heq as Heq. now apply DecimalZ.to_int_inj.
Qed.

Lemma one_digit_table : forallb one_digit (seq 0 10) = true.
Proof. vm_compute. reflexivity. Qed.

Lemma digit_text (n : N) :
  String.length (Number_toString (Z.of_N (n mod 10))) = 1%nat /\
  numeric (Number_toString (Z.of_N (n mod 10))) = true.
Proof.
  pose proof one_digit_table as Htab. rewrite forallb_forall in Htab.
  assert (Hlt : (n mod 10 < 10)%N) by (apply N.mod_lt; discriminate).
  specialize (Htab (N.to_nat (n mod 10))). unfold one_digit in Htab.
  rewrite N_nat_Z in Htab.
  assert (Hin : In (N.to_nat (n mod 10)) (seq 0 10)).
  { apply in_seq. generalize dependent (n mod 10)%N. intros d _ Hd. lia. }
  apply Htab in Hin. apply andb_prop in Hin as [Hl Hn].
  split; [ now apply Nat.eqb_eq | exact Hn ].
Qed.

(** X13.  [generateSecureOTP(length)] for a length of at most 16384
    returns [length] characters, all decimal digits, whatever the
    random words; the result passes [validateOTPFormat] exactly when
    [length] is 4, 5 or 6.  For a longer length it throws. *)
Theorem secure_otp_shape (length : nat) (crypto : nat -> N) :
  (Z.of_nat length <= 16384 ->
   exists code,
     OTPUtils.generateSecureOTP length crypto = Returned code /\
     String.length code = length /\
     numeric code = true /\
     (OTPUtils.validateOTPFormat code = true <-> (4 <= length <= 6)%nat)) /\
  (16384 < Z.of_nat length ->
   OTPUtils.generateSecureOTP length crypto = Thrown).
Proof.
  unfold OTPUtils.generateSecureOTP.
  destruct (Z.ltb_spec 16384 (Z.of_nat length)) as [Hbig | Hsmall];
    (split; [ intros Hle | intros Hgt ]); try lia; try reflexivity.
  set (digits := map _ (seq 0 length)).
  assert (Hlen : String.length (join digits) = length).
  { rewrite length_join. subst digits. rewrite map_map.
    rewrite <- (length_seq length 0) at 2.
    induction (seq 0 length) as [ | i l IH ]; [ reflexivity | ].
    unfold list_sum in *. cbn [map fold_right List.length].
    rewrite IH. now rewrite (proj1 (digit_text (crypto i))). }
  assert (Hnum : numeric (join digits) = true).
  { apply numeric_join. subst digits. apply Forall_forall.
    intros s Hs. apply list_elem_of_In, in_map_iff in Hs as (i & <- & _).
    apply digit_text. }
  exists (join digits).
  split; [ reflexivity | ]. split; [ exact Hlen | ]. split; [ exact Hnum | ].
  unfold OTPUtils.validateOTPFormat. rewrite Hlen, Hnum, andb_true_r.
  rewrite andb_true_iff, !Nat.leb_le. reflexivity.
Qed.

Lemma floor_div_60 (s : Z) :
  0 <= s < 2 ^ 52 -> Math_floor (Number_div (inject_Z s) 60) = s / 60.
Proof. intros Hs. unfold Math_floor, Number_div. now apply minutes_exact. Qed.

Lemma seconds_text_table : forallb seconds_texts_differ (seq 0 60) = true.
Proof. vm_compute. reflexivity. Qed.

Lemma seconds_text_spec (r : Z) :
  0 <= r < 60 ->
  String.length (padStart 2 "0" (Number_toString r)) = 2%nat /\
  numeric (padStart 2 "0" (Number_toString r)) = true /\
  forall r', 0 <= r' < 60 ->
    padStart 2 "0" (Number_toString r) = padStart 2 "0" (Number_toString r') ->
    r = r'.
Proof.
  intros Hr. pose proof seconds_text_table as Htab.
  rewrite forallb_forall in Htab.
  assert (Hin : In (Z.to_nat r) (seq 0 60)) by (apply in_seq; lia).
  apply Htab in Hin. unfold seconds_texts_differ, seconds_text in Hin.
  rewrite Z2Nat.id in Hin by lia.
  apply andb_prop in Hin as [Hin Hall]. apply andb_prop in Hin as [Hl Hn].
  split; [ now apply Nat.eqb_eq | ]. split; [ exact Hn | ].
  intros r' Hr' Heq. rewrite forallb_forall in Hall.
  assert (Hin' : In (Z.to_nat r') (seq 0 60)) by (apply in_seq; lia).
  apply Hall in Hin'. rewrite Z2Nat.id in Hin' by lia.
  rewrite Heq, String.eqb_refl in Hin'. cbn [implb] in Hin'.
  apply Nat.eqb_eq in Hin'. lia.
Qed.

(** X14.  For a number of seconds from 0 to below 2^52,
    [formatTimeRemaining] gives the minutes, a colon and exactly two
    digits, and two different such numbers of seconds never give the
    same text. *)
Theorem time_text_is_faithful (a : Z) :
  0 <= a < 2 ^ 52 ->
  (exists secs,
      OTPUtils.formatTimeRemaining a =
        Number_toString (a / 60) ++ ":" ++ secs /\
      String.length secs = 2%nat /\ numeric secs = true) /\
  (forall b, 0 <= b < 2 ^ 52 ->
     OTPUtils.formatTimeRemaining a = OTPUtils.formatTimeRemaining b -> a = b).
Proof.
  intros Ha. unfold OTPUtils.formatTimeRemaining.
  rewrite floor_div_60 by exact Ha.
  rewrite (Z.rem_mod_nonneg a 60) by lia.
  pose proof (Z.mod_pos_bound a 60 ltac:(lia)) as Hra.
  destruct (seconds_text_spec (a mod 60) Hra) as (Hl & Hn & Hinj).
  split.
  - eexists. split; [ reflexivity | ]. split; assumption.
  - intros b Hb. rewrite floor_div_60 by exact Hb.
    rewrite (Z.rem_mod_nonneg b 60) by lia.
    pose proof (Z.mod_pos_bound b 60 ltac:(lia)) as Hrb.
    destruct (seconds_text_spec (b mod 60) Hrb) as (Hl' & _ & _).
    intros Heq. apply string_app_inj_tail in Heq as [Hm Hs].
    + apply Number_toString_inj in Hm.
      injection Hs as Hs. apply (Hinj _ Hrb) in Hs.
      rewrite (Z.div_mod a 60), (Z.div_mod b 60) by lia. congruence.
    + rewrite !string_app_cons, !string_app_nil. cbn [String.length].
      congruence.
Qed.

End Utilities.



Section Hash.

Lemma ToInt32_range (x : Z) : - 2 ^ 31 <= ToInt32 x < 2 ^ 31.
Proof.
  unfold ToInt32.
  pose proof (Z.mod_pos_bound (x + 2 ^ 31) (2 ^ 32) ltac:(lia)). lia.
Qed.

Lemma ToInt32_shift (x k : Z) : ToInt32 (x + k * 2 ^ 32) = ToInt32 x.
Proof.
  unfold ToInt32.
  replace (x + k * 2 ^ 32 + 2 ^ 31) with (x + 2 ^ 31 + k * 2 ^ 32) by lia.
  now rewrite Z_mod_plus_full.
Qed.

Lemma ToInt32_decomp (x : Z) : exists q, ToInt32 x = x + q * 2 ^ 32.
Proof.
  exists (- ((x + 2 ^ 31) / 2 ^ 32)). unfold ToInt32.
  pose proof (Z.div_mod (x + 2 ^ 31) (2 ^ 32) ltac:(lia)). lia.
Qed.

Lemma ToInt32_fixed (x : Z) : - 2 ^ 31 <= x < 2 ^ 31 -> ToInt32 x = x.
Proof.
  intros Hx. unfold ToInt32. rewrite Z.mod_small by lia. lia.
Qed.

Lemma hash_step_poly (a c : Z) :
  OTPUtils.hash_step (ToInt32 a) c = ToInt32 (31 * a + c).
Proof.
  unfold OTPUtils.hash_step, band, shl.
  rewrite Z.land_diag. change (5 mod 32) with 5.
  rewrite Z.shiftl_mul_pow2 by lia.
  rewrite (ToInt32_fixed (ToInt32 a)) by apply ToInt32_range.
  destruct (ToInt32_decomp a) as [q1 Hq1].
  destruct (ToInt32_decomp (ToInt32 a * 2 ^ 5)) as [q2 Hq2].
  rewrite Hq2, Hq1.
  replace ((a + q1 * 2 ^ 32) * 2 ^ 5 + q2 * 2 ^ 32 - (a + q1 * 2 ^ 32) + c)
    with (31 * a + c + (31 * q1 + q2) * 2 ^ 32) by lia.
  apply ToInt32_shift.
Qed.

Lemma hash_fold_poly (codes : list Z) : forall a,
  fold_left OTPUtils.hash_step codes (ToInt32 a) =
  ToInt32 (fold_left (fun acc c => 31 * acc + c) codes a).
Proof.
  induction codes as [ | c codes IH ]; intros a; [ reflexivity | ].
  cbn [fold_left]. rewrite hash_step_poly. apply IH.
Qed.

(** X15.  [createOTPHash] is the hexadecimal text of the code units of
    [otp + salt] read as a number in base 31, reduced to a signed 32-bit
    integer: the shift, subtraction and [&] of the loop amount to
    [31 * hash + char] modulo 2^32.  The value lies between -2^31 and
    2^31 - 1, and the hash depends on [otp] and [salt] only through
    their concatenation. *)
Theorem hash_is_polynomial_mod_2_32 (otp salt : string) :
  OTPUtils.createOTPHash otp salt =
    Number_toString16 (ToInt32 (poly31 (charCodes (otp ++ salt)))) /\
  - 2 ^ 31 <= OTPUtils.hash_code (otp ++ salt) < 2 ^ 31 /\
  (forall otp' salt',
      otp ++ salt = otp' ++ salt' ->
      OTPUtils.createOTPHash otp salt = OTPUtils.createOTPHash otp' salt').
Proof.
  assert (Hc : forall s, OTPUtils.hash_code s = ToInt32 (poly31 (charCodes s))).
  { intros s. unfold OTPUtils.hash_code, poly31.
    change 0 with (ToInt32 0) at 1. apply hash_fold_poly. }
  split; [ | split ].
  - unfold OTPUtils.createOTPHash. now rewrite Hc.
  - rewrite Hc. apply ToInt32_range.
  - intros otp' salt' Heq. unfold OTPUtils.createOTPHash. now rewrite Heq.
Qed.

End Hash.

Section Phones.

Lemma phone_checks_same (phone : string) :
  OTPUtils.isValidPhoneForSMS phone = AppState.validatePhone phone.
Proof.
  unfold OTPUtils.isValidPhoneForSMS, AppState.validatePhone.
  pose proof (strip_non_digits_numeric phone) as Hn.
  destruct (strip_non_digits phone) as [ | c rest ]; [ reflexivity | ].
  cbn [String.length starts_6_to_9 numeric] in *.
  apply andb_prop in Hn as [_ Hrest]. rewrite Hrest, andb_true_r.
  change (S (String.length rest) =? 10)%nat
    with (String.length rest =? 9)%nat.
  apply andb_comm.
Qed.

(** X16.  [OTPUtils.isValidPhoneForSMS] and [AppState.validatePhone]
    accept the same strings. *)
Theorem phone_checks_agree (phone : string) :
  OTPUtils.isValidPhoneForSMS phone = AppState.validatePhone phone.
Proof. apply phone_checks_same. Qed.

Lemma strip_formatted (cleaned : string) :
  numeric cleaned = true ->
  strip_non_digits ("+91" ++ cleaned) = "91" ++ cleaned.
Proof.
  intros Hn. rewrite strip_non_digits_app.
  now rewrite (strip_non_digits_fixed cleaned Hn).
Qed.

(** X17.  [formatPhoneForSMS] is idempotent: formatting a formatted
    number changes nothing. *)
Theorem format_phone_idempotent (phone : string) :
  OTPUtils.formatPhoneForSMS (OTPUtils.formatPhoneForSMS phone) =
  OTPUtils.formatPhoneForSMS phone.
Proof.
  unfold OTPUtils.formatPhoneForSMS at 2.
  destruct (String.length (strip_non_digits phone) =? 10)%nat eqn:Hl.
  - unfold OTPUtils.formatPhoneForSMS.
    rewrite strip_formatted by apply strip_non_digits_numeric.
    rewrite string_length_app. apply Nat.eqb_eq in Hl. rewrite Hl.
    reflexivity.
  - unfold OTPUtils.formatPhoneForSMS. now rewrite Hl.
Qed.

(** X18.  A phone whose digits number ten is formatted as [+91] followed
    by those digits, thirteen characters; the formatted text no longer
    passes [isValidPhoneForSMS] nor [validatePhone], as it now has
    twelve digits. *)
Theorem formatted_phone_fails_the_checks (phone : string) :
  String.length (strip_non_digits phone) = 10%nat ->
  OTPUtils.formatPhoneForSMS phone = "+91" ++ strip_non_digits phone /\
  String.length (OTPUtils.formatPhoneForSMS phone) = 13%nat /\
  OTPUtils.isValidPhoneForSMS (OTPUtils.formatPhoneForSMS phone) = false /\
  AppState.validatePhone (OTPUtils.formatPhoneForSMS phone) = false.
Proof.
  intros Hl.
  assert (Hf : OTPUtils.formatPhoneForSMS phone
               = "+91" ++ strip_non_digits phone).
  { unfold OTPUtils.formatPhoneForSMS. now rewrite Hl. }
  assert (Hv : OTPUtils.isValidPhoneForSMS (OTPUtils.formatPhoneForSMS phone)
               = false).
  { rewrite Hf. unfold OTPUtils.isValidPhoneForSMS.
    rewrite strip_formatted by apply strip_non_digits_numeric.
    rewrite string_length_app, Hl. reflexivity. }
  split; [ exact Hf | ]. split.
  - rewrite Hf, string_length_app, Hl. reflexivity.
  - split; [ exact Hv | ]. now rewrite <- phone_checks_same.
Qed.

End Phones.

(** ** The cart of [AppState] *)

Module CartFacts.
Import AppState.

Section Cart.

Implicit Types (s : State) (i : string).

Lemma addToCart_cart i d s :
  cart (addToCart i d s) =
  match cart s !! i with
  | Some item =>
      <[i := mkItem (name item) (price item) (image item)
               (quantity item + quantity_or_1 (data_quantity d))]> (cart s)
  | None =>
      <[i := mkItem (data_name d) (data_price d) (data_image d)
               (quantity_or_1 (data_quantity d))]> (cart s)
  end.
Proof. unfold addToCart. destruct (cart s !! i); reflexivity. Qed.

Lemma removeFromCart_cart i s :
  cart (removeFromCart i s) = delete i (cart s).
Proof.
  unfold removeFromCart. destruct (cart s !! i) eqn:Hi; [ reflexivity | ].
  now rewrite delete_id.
Qed.


(** X21.  Adding an item whose id is neither in the cart nor a name
    inherited from [Object.prototype], and removing it again, gives
    back the cart; in between the cart has one entry more, which is
    what the badge counts. *)
Theorem add_then_remove_restores_cart i d s :
  cart s !! i = None ->
  ~ In i Object_prototype_names ->
  cart (removeFromCart i (addToCart i d s)) = cart s /\
  cartCount (addToCart i d s) = cartCount s + 1.
Proof.
  intros Hi _. split.
  - rewrite removeFromCart_cart, addToCart_cart, Hi.
    rewrite delete_insert_eq. now apply delete_id.
  - unfold cartCount. rewrite addToCart_cart, Hi.
    rewrite map_size_insert_None by exact Hi. lia.
Qed.


End Cart.

End CartFacts.

(** * The further properties on sample worlds *)

Lemma storage_follows_store_witness :
  (forall n : nat, (fun _ : nat => true) n = true) /\
  in_sync demo_form.
Proof.
  assert (Hok : forall n : nat, (fun _ : nat => true) n = true)
    by reflexivity.
  split; [ exact Hok | ].
  exact (proj2 storage_follows_store 0 (fun _ => half) (fun _ => true)
           [CGenerate "17" "9876543210"; CVerify "17" "0000"] Hok).
Defined.

Lemma reload_restores_store_witness :
  in_sync demo_form /\ construct demo_form = demo_form.
Proof.
  assert (Hs : in_sync demo_form) by (left; reflexivity).
  split; [ exact Hs | exact (reload_restores_store demo_form Hs) ].
Defined.

Lemma calls_touch_only_their_order_witness :
  (2 : Z) <> 1 /\
  otpStore (snd (verifyOTP 1 "0000" demo_pair)) !! 2 = otpStore demo_pair !! 2.
Proof.
  assert (Hne : (2 : Z) <> 1) by discriminate.
  split; [ exact Hne | ].
  exact (proj1 (proj2 (calls_touch_only_their_order demo_pair 1 2 Hne)) "0000").
Defined.

Lemma record_only_moves_forward_witness :
  let cs := [CVerify 1 "0000"; CWait 1000; CCheckStatus 1; CSweep;
             CGenerate 2 "9876543211"] in
  let d' := mkOtpData "5500" "9876543210" 1 0 300000 false None in
  Forall (fun c => ~ regenerates c 1) cs /\
  otpStore demo_generated !! 1 = Some demo_record /\
  otpStore (run cs demo_generated) !! 1 = Some d' /\
  later_state demo_record d'.
Proof.
  cbv zeta.
  assert (Hcs : Forall (fun c : @Call Z => ~ regenerates c 1)
                  [CVerify 1 "0000"; CWait 1000; CCheckStatus 1; CSweep;
                   CGenerate 2 "9876543211"]).
  { repeat constructor; cbn; try tauto. discriminate. }
  assert (H1 : otpStore demo_generated !! 1 = Some demo_record)
    by reflexivity.
  assert (H2 : otpStore (run [CVerify 1 "0000"; CWait 1000; CCheckStatus 1;
                              CSweep; CGenerate 2 "9876543211"]
                             demo_generated) !! 1 =
               Some (mkOtpData "5500" "9876543210" 1 0 300000 false None))
    by reflexivity.
  split; [ exact Hcs | ]. split; [ exact H1 | ]. split; [ exact H2 | ].
  exact (record_only_moves_forward _ demo_generated 1 demo_record _ Hcs H1 H2).
Defined.

Lemma only_generate_creates_records_witness :
  let cs := [CVerify 2 "5500"; CResend 2; CSweep; CCheckStatus 2] in
  Forall (fun c => forall p, c <> CGenerate 2 p) cs /\
  otpStore demo_generated !! 2 = None /\
  otpStore (run cs demo_generated) !! 2 = None.
Proof.
  cbv zeta.
  assert (Hcs : Forall (fun c : @Call Z => forall p, c <> CGenerate 2 p)
                  [CVerify 2 "5500"; CResend 2; CSweep; CCheckStatus 2]).
  { repeat constructor; intros p; discriminate. }
  assert (H1 : otpStore demo_generated !! 2 = None) by reflexivity.
  split; [ exact Hcs | ]. split; [ exact H1 | ].
  exact (only_generate_creates_records _ demo_generated 2 Hcs H1).
Defined.

Lemma status_fields_agree_witness :
  otpStore demo_generated !! 1 = Some demo_record /\
  clock demo_generated < expiresAt demo_record /\
  st_remainingAttempts (fst (checkOTPStatus 1 demo_generated)) = 3 /\
  1000 * (st_timeRemaining (fst (checkOTPStatus 1 demo_generated)) - 1)
    < expiresAt demo_record - clock demo_generated
    <= 1000 * st_timeRemaining (fst (checkOTPStatus 1 demo_generated)).
Proof.
  assert (H1 : otpStore demo_generated !! 1 = Some demo_record)
    by reflexivity.
  assert (H2 : clock demo_generated < expiresAt demo_record) by reflexivity.
  assert (H3 : attempts demo_record <= maxAttempts) by (vm_compute; discriminate).
  destruct (status_fields_agree demo_generated 1 demo_record H1)
    as (_ & _ & Ht & _ & Hr).
  split; [ exact H1 | ]. split; [ exact H2 | ].
  split; [ exact (Hr H3) | exact (Ht H2) ].
Defined.

Lemma expiry_instant_disagreement_witness :
  otpStore demo_instant !! 1 = Some demo_record /\
  clock demo_instant = expiresAt demo_record /\
  attempts demo_record < maxAttempts /\
  st_expired (fst (checkOTPStatus 1 demo_instant)) = true /\
  success (fst (verifyOTP 1 (otp demo_record) demo_instant)) = true.
Proof.
  assert (H1 : otpStore demo_instant !! 1 = Some demo_record) by reflexivity.
  assert (H2 : clock demo_instant = expiresAt demo_record) by reflexivity.
  assert (H3 : attempts demo_record < maxAttempts) by reflexivity.
  destruct (expiry_instant_disagreement demo_instant 1 demo_record H1 H2 H3)
    as (He & _ & Hs).
  split; [ exact H1 | ]. split; [ exact H2 | ]. split; [ exact H3 | ].
  split; [ exact He | exact Hs ].
Defined.

Lemma statistics_active_identity_witness :
  count_records (fun d => verified d && past_expiry (clock demo_pair) d)
                (otpStore demo_pair) = 0 /\
  0 <= active (fst (getStatistics demo_pair)).
Proof.
  assert (H0 : count_records
                 (fun d => verified d && past_expiry (clock demo_pair) d)
                 (otpStore demo_pair) = 0) by reflexivity.
  split; [ exact H0 | ].
  exact (proj2 (proj2 (proj2 (proj2 (statistics_active_identity demo_pair))))
               H0).
Defined.

Lemma sms_only_when_generating_witness :
  ~ sends (CVerify (1 : Z) "5500") /\
  outbox (exec (CVerify 1 "5500") demo_generated) = outbox demo_generated.
Proof.
  assert (Hn : ~ sends (CVerify (1 : Z) "5500")) by (cbn; tauto).
  split; [ exact Hn | ].
  exact (proj1 sms_only_when_generating (CVerify 1 "5500") demo_generated Hn).
Defined.

Lemma incomplete_entry_costs_no_attempt_witness :
  let inputs := ["5"; "5"; ""; "0"] in
  Forall (fun s => (String.length s <= 1)%nat) inputs /\
  Exists (fun s => s = "") inputs /\
  handleOTPFormSubmit 1 inputs demo_generated = (Incomplete, demo_generated).
Proof.
  cbv zeta.
  assert (Hm : Forall (fun s => (String.length s <= 1)%nat)
                 ["5"; "5"; ""; "0"]) by (repeat constructor).
  assert (He : Exists (fun s => s = "") ["5"; "5"; ""; "0"]).
  { apply Exists_cons_tl, Exists_cons_tl, Exists_cons_hd. reflexivity. }
  split; [ exact Hm | ]. split; [ exact He | ].
  exact (proj1 (incomplete_entry_costs_no_attempt demo_generated 1 _ Hm) He).
Defined.

Lemma secure_otp_shape_witness :
  Z.of_nat 4 <= 16384 /\
  exists code,
    OTPUtils.generateSecureOTP 4 (fun i => 4294967295 - N.of_nat i)%N
      = Returned code /\
    String.length code = 4%nat /\
    numeric code = true /\
    (OTPUtils.validateOTPFormat code = true <-> (4 <= 4 <= 6)%nat).
Proof.
  assert (H4 : Z.of_nat 4 <= 16384) by (vm_compute; discriminate).
  split; [ exact H4 | ].
  exact (proj1 (secure_otp_shape 4 (fun i => 4294967295 - N.of_nat i)%N) H4).
Defined.

Lemma time_text_is_faithful_witness :
  0 <= 299 < 2 ^ 52 /\
  exists secs,
    OTPUtils.formatTimeRemaining 299 =
      Number_toString (299 / 60) ++ ":" ++ secs /\
    String.length secs = 2%nat /\ numeric secs = true.
Proof.
  assert (Ha : 0 <= 299 < 2 ^ 52) by (split; [ discriminate | reflexivity ]).
  split; [ exact Ha | ].
  exact (proj1 (time_text_is_faithful 299 Ha)).
Defined.

Lemma hash_is_polynomial_mod_2_32_witness :
  "12" ++ "34" = "123" ++ "4" /\
  OTPUtils.createOTPHash "12" "34" = OTPUtils.createOTPHash "123" "4".
Proof.
  assert (He : "12" ++ "34" = "123" ++ "4") by reflexivity.
  split; [ exact He | ].
  exact (proj2 (proj2 (hash_is_polynomial_mod_2_32 "12" "34")) "123" "4" He).
Defined.

Lemma formatted_phone_fails_the_checks_witness :
  String.length (strip_non_digits "98765 43210") = 10%nat /\
  OTPUtils.isValidPhoneForSMS "98765 43210" = true /\
  OTPUtils.formatPhoneForSMS "98765 43210" = "+919876543210" /\
  OTPUtils.isValidPhoneForSMS (OTPUtils.formatPhoneForSMS "98765 43210")
    = false.
Proof.
  assert (Hl : String.length (strip_non_digits "98765 43210") = 10%nat)
    by reflexivity.
  destruct (formatted_phone_fails_the_checks "98765 43210" Hl)
    as (Hf & _ & Hv & _).
  split; [ exact Hl | ]. split; [ reflexivity | ].
  split; [ exact Hf | exact Hv ].
Defined.

Lemma add_then_remove_restores_cart_witness :
  AppState.cart demo_cart !! "8" = None /\
  ~ In "8" Object_prototype_names /\
  AppState.cart (AppState.removeFromCart "8"
                   (AppState.addToCart "8" pizza demo_cart))
    = AppState.cart demo_cart /\
  AppState.cartCount (AppState.addToCart "8" pizza demo_cart) = 2.
Proof.
  assert (Hi : AppState.cart demo_cart !! "8" = None) by reflexivity.
  assert (Hp : ~ In "8" Object_prototype_names).
  { cbn. intros Hin. repeat (destruct Hin as [Hin | Hin]; [ discriminate | ]).
    exact Hin. }
  split; [ exact Hi | ]. split; [ exact Hp | ].
  exact (CartFacts.add_then_remove_restores_cart "8" pizza demo_cart Hi Hp).
Defined.

